(** * FakeHLF_PseudoCode::do_work — the request / receive / send worker loop

    Shallow embedding of [FakeHLF_PseudoCode::do_work]
    (src/FakeHLF_PseudoCode.cpp, lines 94-198) as a deterministic step
    machine driven by an environment, and the properties of its counters,
    warnings and shutdown behaviour.

    The worker thread interacts with its environment in exactly four ways:
    it loads [running_flag], it calls [requestSender_->send],
    [dataReceiver_->receive] and [resultSender_->send].  Between two such
    interactions the code is straight-line, so one machine step is "perform
    the interaction the thread is standing at, then run the code up to the
    next interaction".  The control points are named after the source line
    of the interaction they stand at.

    Reading choices for the identifiers of the source that [do_work] does
    not declare (the header is not part of the sources at hand):
    - line 132 adds the batch size to [requestTRCount], an identifier that
      [do_work] neither declares nor reads anywhere; the counter declared
      at line 100 is [requestedTRCount], which no line writes.  Line 132
      therefore changes none of the four counters of the model.
    - line 193 streams [TRsPerRequest] and line 194 [processedCount];
      neither is maintained by [do_work], so both are configuration values.
    - the three timeouts are members set to 100 by the constructor; they are
      configuration values whose default is 100.
    - [TRsToRequestEachTime] is the constant 1 in the source; it is a
      configuration value here so that statements can range over it.

    The counters are C++ [int]s: 32-bit values in [Z], incremented with
    [int_add], which writes the wrap-around out.  C++ leaves signed overflow
    undefined; the model takes the two's-complement result, and every
    statement about the value of a counter is made for runs of at most
    [INT_MAX] steps, on which lemma [progress_bound] shows that no
    increment overflows.  [trigRecLeftToReceive] is positive wherever line
    149 decrements it (lemma [owed_is_positive]), so that decrement never
    overflows either.

    TLOG trace statements are not part of the event log. *)

From Stdlib Require Import String.
From Stdlib Require Import ZArith List Bool Arith Lia.
Import ListNotations.

Local Open Scope Z_scope.

(** ** Data model *)

(** The payload of a trigger record is opaque to the loop. *)
Definition TriggerRecord : Type := nat.

(** The default-constructed record of line 140. *)
Definition default_TriggerRecord : TriggerRecord := 0%nat.

(** Result of one timeout-bounded transport call: it returns, or it throws
    [dunedaq::msglib::TransportTimeoutExpired]. *)
Inductive Outcome (A : Type) : Type :=
| Completed (a : A)
| TransportTimeoutExpired.

Arguments Completed {A} a.
Arguments TransportTimeoutExpired {A}.

Inductive Endpoint : Type :=
| RequestAddress      (* requestSender_ *)
| DataSource          (* dataReceiver_ *)
| ResultDestination.  (* resultSender_ *)

(** The identifiers streamed into the summary message. *)
Inductive Ident : Type :=
| Id_requestCount
| Id_requestedTRCount
| Id_receivedCount
| Id_sentCount
| Id_TRsPerRequest
| Id_processedCount.

Definition Ident_eqb (a b : Ident) : bool :=
  match a, b with
  | Id_requestCount, Id_requestCount
  | Id_requestedTRCount, Id_requestedTRCount
  | Id_receivedCount, Id_receivedCount
  | Id_sentCount, Id_sentCount
  | Id_TRsPerRequest, Id_TRsPerRequest
  | Id_processedCount, Id_processedCount => true
  | _, _ => false
  end.

Record Config : Type := mkConfig {
  TRsToRequestEachTime : Z;   (* line 98 *)
  requestSendTimeout_ : Z;    (* line 34, in milliseconds *)
  dataReceiveTimeout_ : Z;    (* line 35 *)
  resultSendTimeout_ : Z;     (* line 36 *)
  TRsPerRequest : Z;          (* line 193 *)
  processedCount : Z          (* line 194 *)
}.

(** The values written in the source. *)
Definition source_config : Config :=
  {| TRsToRequestEachTime := 1;
     requestSendTimeout_ := 100;
     dataReceiveTimeout_ := 100;
     resultSendTimeout_ := 100;
     TRsPerRequest := 1;
     processedCount := 0 |}.

(** C++ [int]: 32 bits, two's complement. *)
Definition INT_MAX : Z := 2147483647.
Definition INT_MIN : Z := -2147483648.

Definition int_wrap (z : Z) : Z :=
  (z + 2147483648) mod 4294967296 - 2147483648.

(** [a + b] on [int]s, and so [++a] for [b = 1]. *)
Definition int_add (a b : Z) : Z := int_wrap (a + b).

Arguments int_add : simpl never.

(** The four local counters, lines 99-102. *)
Record Counters : Type := mkCounters {
  requestCount : Z;
  requestedTRCount : Z;
  receivedCount : Z;
  sentCount : Z
}.

(** What the thread does that is visible from outside. *)
Inductive Event : Type :=
| EvLoad (b : bool)                                   (* running_flag.load() *)
| EvRequestSend (numberOfRecords : Z) (r : Outcome unit)          (* line 119 *)
| EvReceive (r : Outcome TriggerRecord)                           (* line 147 *)
| EvResultSend (trigRec : TriggerRecord) (r : Outcome unit)       (* line 175 *)
| EvWarning (ep : Endpoint) (timeout_ms : Z)                      (* ers::warning *)
| EvInfo (summary : list (Ident * Z)).                            (* ers::info *)

(** The environment: what the flag reads and what each endpoint answers at
    step [t] of the thread. *)
Record World : Type := mkWorld {
  running_flag : nat -> bool;
  requestSender_send : nat -> Outcome unit;
  dataReceiver_receive : nat -> Outcome TriggerRecord;
  resultSender_send : nat -> Outcome unit
}.

(** Control points.  The block-scoped locals that are live at a point are
    its arguments: [leftToReceive] is [trigRecLeftToReceive] (line 137),
    [trigRec] the record of line 140.  The two success flags of lines 141 and 169 are
    false at every point where the thread waits inside their loops. *)
Inductive Pc : Type :=
| AtOuterFlag                                               (* line 104 *)
| AtRequestSend                                             (* line 119 *)
| AtOwedFlag (leftToReceive : Z)                            (* line 138, right conjunct *)
| AtReceiveFlag (leftToReceive : Z)                         (* line 142, right conjunct *)
| AtReceive (leftToReceive : Z)                             (* line 147 *)
| AtSendFlag (trigRec : TriggerRecord) (leftToReceive : Z)  (* line 170, right conjunct *)
| AtResultSend (trigRec : TriggerRecord) (leftToReceive : Z) (* line 175 *)
| Returned.                                                 (* after line 197 *)

Record Machine : Type := mkMachine {
  pc : Pc;
  vars : Counters;
  log : list Event
}.

(** ** The loop body *)

(** Lines 191-196. *)
Definition summary (cfg : Config) (c : Counters) : list (Ident * Z) :=
  [ (Id_requestCount, requestCount c);
    (Id_TRsPerRequest, TRsPerRequest cfg);
    (Id_receivedCount, receivedCount c);
    (Id_processedCount, processedCount cfg);
    (Id_sentCount, sentCount c) ].

(** Line 138, [trigRecLeftToReceive > 0 && running_flag.load()]: the flag is
    loaded only when the left conjunct holds; otherwise the body of the
    outer loop ends (line 188) and control is back at line 104. *)
Definition owed_loop_head (leftToReceive : Z) : Pc :=
  if 0 <? leftToReceive then AtOwedFlag leftToReceive else AtOuterFlag.

(** Line 170, [!trigRecWasSuccessfullySent && running_flag.load()]. *)
Definition send_loop_head (trigRecWasSuccessfullySent : bool)
    (trigRec : TriggerRecord) (leftToReceive : Z) : Pc :=
  if negb trigRecWasSuccessfullySent then AtSendFlag trigRec leftToReceive
  else owed_loop_head leftToReceive.

(** Lines 163-185 entered after the receive loop has ended. *)
Definition after_receive_loop (trigRecWasSuccessfullyReceived : bool)
    (trigRec : TriggerRecord) (leftToReceive : Z) (c : Counters) : Pc * Counters :=
  if trigRecWasSuccessfullyReceived then
    (* ++receivedCount; trigRecWasSuccessfullySent = false *)
    (send_loop_head false trigRec leftToReceive,
     {| requestCount := requestCount c;
        requestedTRCount := requestedTRCount c;
        receivedCount := int_add (receivedCount c) 1;
        sentCount := sentCount c |})
  else (owed_loop_head leftToReceive, c).

(** One interaction with the environment and the code up to the next one. *)
Definition step_core (cfg : Config) (w : World) (t : nat)
    (p : Pc) (c : Counters) : Pc * Counters * list Event :=
  match p with
  | AtOuterFlag =>
      if running_flag w t then
        (* lines 105-114 build the request *)
        (AtRequestSend, c, [EvLoad true])
      else
        (* lines 191-197 *)
        (Returned, c, [EvLoad false; EvInfo (summary cfg c)])
  | AtRequestSend =>
      match requestSender_send w t with
      | Completed _ =>
          (* line 131: ++requestCount.  Line 132 adds to [requestTRCount],
             which is none of the four counters: [requestedTRCount] keeps
             its value.  Line 137 starts the batch. *)
          (owed_loop_head (TRsToRequestEachTime cfg),
           {| requestCount := int_add (requestCount c) 1;
              requestedTRCount := requestedTRCount c;
              receivedCount := receivedCount c;
              sentCount := sentCount c |},
           [EvRequestSend (TRsToRequestEachTime cfg) (Completed tt)])
      | TransportTimeoutExpired =>
          (* lines 121-128: warn, then [continue] *)
          (AtOuterFlag, c,
           [EvRequestSend (TRsToRequestEachTime cfg) TransportTimeoutExpired;
            EvWarning RequestAddress (requestSendTimeout_ cfg)])
      end
  | AtOwedFlag leftToReceive =>
      if running_flag w t then
        (* lines 140-142: trigRecWasSuccessfullyReceived = false, so the
           condition of line 142 goes on to load the flag *)
        (AtReceiveFlag leftToReceive, c, [EvLoad true])
      else (AtOuterFlag, c, [EvLoad false])
  | AtReceiveFlag leftToReceive =>
      if running_flag w t then (AtReceive leftToReceive, c, [EvLoad true])
      else
        (* the loop of line 142 ends with nothing received *)
        let '(p', c') := after_receive_loop false default_TriggerRecord leftToReceive c in
        (p', c', [EvLoad false])
  | AtReceive leftToReceive =>
      match dataReceiver_receive w t with
      | Completed trigRec =>
          (* lines 148-149, then the loop of line 142 ends without a load *)
          let '(p', c') := after_receive_loop true trigRec (leftToReceive - 1) c in
          (p', c', [EvReceive (Completed trigRec)])
      | TransportTimeoutExpired =>
          (* lines 151-160 *)
          (AtReceiveFlag leftToReceive, c,
           [EvReceive TransportTimeoutExpired;
            EvWarning DataSource (dataReceiveTimeout_ cfg)])
      end
  | AtSendFlag trigRec leftToReceive =>
      if running_flag w t then (AtResultSend trigRec leftToReceive, c, [EvLoad true])
      else (owed_loop_head leftToReceive, c, [EvLoad false])
  | AtResultSend trigRec leftToReceive =>
      match resultSender_send w t with
      | Completed _ =>
          (* lines 176-177 *)
          (send_loop_head true trigRec leftToReceive,
           {| requestCount := requestCount c;
              requestedTRCount := requestedTRCount c;
              receivedCount := receivedCount c;
              sentCount := int_add (sentCount c) 1 |},
           [EvResultSend trigRec (Completed tt)])
      | TransportTimeoutExpired =>
          (* lines 179-183: the handler is empty *)
          (send_loop_head false trigRec leftToReceive, c,
           [EvResultSend trigRec TransportTimeoutExpired])
      end
  | Returned => (Returned, c, [])
  end.

Definition step (cfg : Config) (w : World) (t : nat) (m : Machine) : Machine :=
  let '(p, c, evs) := step_core cfg w t (pc m) (vars m) in
  {| pc := p; vars := c; log := log m ++ evs |}.

(** Lines 99-102 and the first arrival at line 104. *)
Definition do_work_entry : Machine :=
  {| pc := AtOuterFlag;
     vars := {| requestCount := 0; requestedTRCount := 0;
                receivedCount := 0; sentCount := 0 |};
     log := [] |}.

(** The thread after [t] interactions. *)
Fixpoint do_work (cfg : Config) (w : World) (t : nat) : Machine :=
  match t with
  | O => do_work_entry
  | S t' => step cfg w t' (do_work cfg w t')
  end.

(** What step [t] of the thread emits. *)
Definition events_at (cfg : Config) (w : World) (t : nat) : list Event :=
  snd (step_core cfg w t (pc (do_work cfg w t)) (vars (do_work cfg w t))).

(** ** Observations on events, control points and logs *)

Definition is_endpoint_op (e : Event) : bool :=
  match e with
  | EvRequestSend _ _ | EvReceive _ | EvResultSend _ _ => true
  | _ => false
  end.

Definition is_timeout (e : Event) : bool :=
  match e with
  | EvRequestSend _ TransportTimeoutExpired
  | EvReceive TransportTimeoutExpired
  | EvResultSend _ TransportTimeoutExpired => true
  | _ => false
  end.

Definition is_warning (e : Event) : bool :=
  match e with EvWarning _ _ => true | _ => false end.

Definition is_completed_result_send (e : Event) : bool :=
  match e with EvResultSend _ (Completed _) => true | _ => false end.

Definition count_events (f : Event -> bool) (l : list Event) : nat :=
  length (filter f l).

Definition no_endpoint_op (l : list Event) : bool :=
  forallb (fun e => negb (is_endpoint_op e)) l.

(** The summaries found in a log, in order. *)
Definition summaries (l : list Event) : list (list (Ident * Z)) :=
  flat_map (fun e => match e with EvInfo s => [s] | _ => [] end) l.

(** Whether a summary has an entry for identifier [i]. *)
Definition reported (s : list (Ident * Z)) (i : Ident) : bool :=
  existsb (Ident_eqb i) (map fst s).

(** The thread stands at a load of [running_flag]. *)
Definition at_flag_check (p : Pc) : bool :=
  match p with
  | AtOuterFlag | AtOwedFlag _ | AtReceiveFlag _ | AtSendFlag _ _ => true
  | _ => false
  end.

(** The thread stands at a transport call. *)
Definition at_endpoint_call (p : Pc) : bool :=
  match p with
  | AtRequestSend | AtReceive _ | AtResultSend _ _ => true
  | _ => false
  end.

(** Loop nesting depth of a control point: the number of loop conditions
    that still have to fail before the function returns. *)
Definition exit_rank (p : Pc) : nat :=
  match p with
  | Returned => 0
  | AtOuterFlag => 1
  | AtRequestSend => 2
  | AtOwedFlag _ => 2
  | AtReceiveFlag _ => 3
  | AtReceive _ => 4
  | AtSendFlag _ _ => 3
  | AtResultSend _ _ => 4
  end.

(** The value of [trigRecLeftToReceive] where it is in scope. *)
Definition owed (p : Pc) : option Z :=
  match p with
  | AtOwedFlag l | AtReceiveFlag l | AtReceive l
  | AtSendFlag _ l | AtResultSend _ l => Some l
  | AtOuterFlag | AtRequestSend | Returned => None
  end.


(** The summary has an entry for each of the four counters, with the
    counter's value. *)
Definition summary_reports_all_four (c : Counters) (s : list (Ident * Z)) : Prop :=
  In (Id_requestCount, requestCount c) s /\
  In (Id_requestedTRCount, requestedTRCount c) s /\
  In (Id_receivedCount, receivedCount c) s /\
  In (Id_sentCount, sentCount c) s.


(** ** Concrete environments *)

(** [stop] was called before the thread first looked at the flag. *)
Definition world_stopped : World :=
  {| running_flag := fun _ => false;
     requestSender_send := fun _ => Completed tt;
     dataReceiver_receive := fun _ => Completed 7%nat;
     resultSender_send := fun _ => Completed tt |}.

(** Everything answers at once, except that the result send of step 6
    times out; [stop] is called after nine steps. *)
Definition world_result_timeout : World :=
  {| running_flag := fun t => (t <? 9)%nat;
     requestSender_send := fun _ => Completed tt;
     dataReceiver_receive := fun _ => Completed 7%nat;
     resultSender_send :=
       fun t => if (t =? 6)%nat then TransportTimeoutExpired else Completed tt |}.

(** The request send of step 1 and the receive of step 6 time out. *)
Definition world_early_timeouts : World :=
  {| running_flag := fun t => (t <? 12)%nat;
     requestSender_send :=
       fun t => if (t =? 1)%nat then TransportTimeoutExpired else Completed tt;
     dataReceiver_receive :=
       fun t => if (t =? 6)%nat then TransportTimeoutExpired else Completed 7%nat;
     resultSender_send := fun _ => Completed tt |}.

(** Every endpoint answers at once; [stop] is called after fourteen steps. *)
Definition world_all_prompt : World :=
  {| running_flag := fun t => (t <? 14)%nat;
     requestSender_send := fun _ => Completed tt;
     dataReceiver_receive := fun _ => Completed 7%nat;
     resultSender_send := fun _ => Completed tt |}.

(** The flag reads false at step 7 only, in the middle of a batch of two. *)
Definition world_flag_blip : World :=
  {| running_flag := fun t => negb (t =? 7)%nat;
     requestSender_send := fun _ => Completed tt;
     dataReceiver_receive := fun _ => Completed 7%nat;
     resultSender_send := fun _ => Completed tt |}.

Definition config_batch_of_two : Config :=
  {| TRsToRequestEachTime := 2;
     requestSendTimeout_ := 100;
     dataReceiveTimeout_ := 100;
     resultSendTimeout_ := 100;
     TRsPerRequest := 2;
     processedCount := 0 |}.

(** ** Further observations on logs *)

Definition is_completed_request_send (e : Event) : bool :=
  match e with EvRequestSend _ (Completed _) => true | _ => false end.

Definition is_completed_receive (e : Event) : bool :=
  match e with EvReceive (Completed _) => true | _ => false end.

(** What the handler of a transport call emits when the call times out:
    lines 121-128 for the request send, lines 151-160 for the receive,
    nothing for the result send (lines 179-183). *)
Definition warning_for (cfg : Config) (e : Event) : list Event :=
  match e with
  | EvRequestSend _ TransportTimeoutExpired =>
      [EvWarning RequestAddress (requestSendTimeout_ cfg)]
  | EvReceive TransportTimeoutExpired =>
      [EvWarning DataSource (dataReceiveTimeout_ cfg)]
  | _ => []
  end.

(** The record of the latest completed receive of a log, starting from
    [last]. *)
Fixpoint last_received (last : option TriggerRecord) (l : list Event)
    : option TriggerRecord :=
  match l with
  | [] => last
  | EvReceive (Completed r) :: l' => last_received (Some r) l'
  | _ :: l' => last_received last l'
  end.

(** Every result send of the log carries the record of the latest completed
    receive before it. *)
Fixpoint forwards_last_received (last : option TriggerRecord) (l : list Event)
    : bool :=
  match l with
  | [] => true
  | EvReceive (Completed r) :: l' => forwards_last_received (Some r) l'
  | EvResultSend r _ :: l' =>
      match last with
      | Some r' => Nat.eqb r r' && forwards_last_received last l'
      | None => false
      end
  | _ :: l' => forwards_last_received last l'
  end.

(** The thread is inside the loop of line 170. *)
Definition in_send_loop (p : Pc) : bool :=
  match p with
  | AtSendFlag _ _ | AtResultSend _ _ => true
  | _ => false
  end.

(** Step [t] is a result send that completes: the thread stands at line
    175 and the result destination accepts the record. *)
Definition result_send_completes (w : World) (t : nat) (p : Pc) : bool :=
  match p with
  | AtResultSend _ _ =>
      match resultSender_send w t with
      | Completed _ => true
      | TransportTimeoutExpired => false
      end
  | _ => false
  end.

(** One failed round of the send loop (lines 170-183). *)
Definition send_retry_round (trigRec : TriggerRecord) : list Event :=
  [EvLoad true; EvResultSend trigRec TransportTimeoutExpired].

(** One failed round of the receive loop (lines 142-160) and of the request
    part of the outer loop (lines 104-128). *)
Definition receive_retry_round (cfg : Config) : list Event :=
  [EvLoad true; EvReceive TransportTimeoutExpired;
   EvWarning DataSource (dataReceiveTimeout_ cfg)].

Definition request_retry_round (cfg : Config) : list Event :=
  [EvLoad true;
   EvRequestSend (TRsToRequestEachTime cfg) TransportTimeoutExpired;
   EvWarning RequestAddress (requestSendTimeout_ cfg)].

(** Every endpoint answers at once and [stop] is never called. *)
Definition world_prompt_forever : World :=
  {| running_flag := fun _ => true;
     requestSender_send := fun _ => Completed tt;
     dataReceiver_receive := fun t => Completed t;
     resultSender_send := fun _ => Completed tt |}.

(** Nothing ever answers and [stop] is never called. *)
Definition world_all_down : World :=
  {| running_flag := fun _ => true;
     requestSender_send := fun _ => TransportTimeoutExpired;
     dataReceiver_receive := fun _ => TransportTimeoutExpired;
     resultSender_send := fun _ => TransportTimeoutExpired |}.

(** The request is accepted, then the data source stays silent. *)
Definition world_data_down : World :=
  {| running_flag := fun _ => true;
     requestSender_send := fun _ => Completed tt;
     dataReceiver_receive := fun _ => TransportTimeoutExpired;
     resultSender_send := fun _ => Completed tt |}.

(** [stop] is called while the receive of step 4 is in flight. *)
Definition world_stop_in_flight : World :=
  {| running_flag := fun t => (t <? 4)%nat;
     requestSender_send := fun _ => Completed tt;
     dataReceiver_receive := fun _ => Completed 7%nat;
     resultSender_send := fun _ => Completed tt |}.

(** ** Construction and initialisation, lines 28-74 *)

Definition Address : Type := string.

(** The [ers::Issue] a transport constructor throws. *)
Definition Issue : Type := string.

(** The three endpoint members.  A member is [nullptr] ([None]) or owns the
    endpoint object that was built on an address. *)
Record Members : Type := mkMembers {
  requestSender_ : option Address;
  dataReceiver_ : option Address;
  resultSender_ : option Address
}.

(** Lines 31-33: the constructor leaves the three members null. *)
Definition constructed : Members :=
  {| requestSender_ := None; dataReceiver_ := None; resultSender_ := None |}.

(** The constructors of the message library, which is not part of the
    sources at hand: each either builds the endpoint or throws an issue. *)
Record Msglib : Type := mkMsglib {
  new_DAQSender_TriggerRecordRequest : Address -> option Issue;
  new_DAQReceiver_TriggerRecord : Address -> option Issue;
  new_DAQSender_TriggerRecord : Address -> option Issue
}.

(** Lines 52, 61, 70. *)
Record InvalidEndpointFatalError : Type := mkFatal {
  what : string;
  cause : Issue
}.

(** [init], lines 42-74.  [get_config] gives the string stored under a key
    of the configuration; a lookup that fails is outside this model.  The
    result is the members as [init] leaves them and the error it throws, if
    any. *)
Definition init (lib : Msglib) (get_config : string -> Address) (m : Members)
    : Members * option InvalidEndpointFatalError :=
  match new_DAQSender_TriggerRecordRequest lib (get_config "request_address"%string) with
  | Some excpt =>
      (m, Some {| what := "request connection"; cause := excpt |})
  | None =>
      let m1 := {| requestSender_ := Some (get_config "request_address"%string);
                   dataReceiver_ := dataReceiver_ m;
                   resultSender_ := resultSender_ m |} in
      match new_DAQReceiver_TriggerRecord lib (get_config "data_source_address"%string) with
      | Some excpt =>
          (m1, Some {| what := "data source address"; cause := excpt |})
      | None =>
          let m2 := {| requestSender_ := requestSender_ m1;
                       dataReceiver_ := Some (get_config "data_source_address"%string);
                       resultSender_ := resultSender_ m1 |} in
          match new_DAQSender_TriggerRecord lib
                  (get_config "result_destination_address"%string) with
          | Some excpt =>
              (m2, Some {| what := "result destination address"; cause := excpt |})
          | None =>
              ({| requestSender_ := requestSender_ m2;
                  dataReceiver_ := dataReceiver_ m2;
                  resultSender_ := Some (get_config "result_destination_address"%string) |},
               None)
          end
      end
  end.

(** A configuration and two message libraries to run [init] on. *)
Definition example_get_config (key : string) : Address :=
  if String.eqb key "request_address" then "tcp://dispatcher:5000"%string
  else if String.eqb key "data_source_address" then "tcp://hlf:5001"%string
  else if String.eqb key "result_destination_address" then "tcp://dispatcher:5002"%string
  else EmptyString.

Definition msglib_all_up : Msglib :=
  {| new_DAQSender_TriggerRecordRequest := fun _ => None;
     new_DAQReceiver_TriggerRecord := fun _ => None;
     new_DAQSender_TriggerRecord := fun _ => None |}.

Definition msglib_data_source_down : Msglib :=
  {| new_DAQSender_TriggerRecordRequest := fun _ => None;
     new_DAQReceiver_TriggerRecord := fun _ => Some "connection refused"%string;
     new_DAQSender_TriggerRecord := fun _ => Some "connection refused"%string |}.

(** ** Basic facts about the machine *)

Ltac split_ands :=
  repeat match goal with |- _ /\ _ => split end.

(** Case analysis over one step: the control point, then whatever the
    environment answers there, then the loop-head tests. *)
Ltac step_cases p :=
  destruct p; cbn [step_core after_receive_loop send_loop_head negb fst snd];
  unfold owed_loop_head;
  repeat match goal with
    | |- context [if running_flag ?w ?t then _ else _] =>
        destruct (running_flag w t) eqn:?
    | |- context [match requestSender_send ?w ?t with _ => _ end] =>
        destruct (requestSender_send w t) as [[]|] eqn:?
    | |- context [match dataReceiver_receive ?w ?t with _ => _ end] =>
        destruct (dataReceiver_receive w t) eqn:?
    | |- context [match resultSender_send ?w ?t with _ => _ end] =>
        destruct (resultSender_send w t) as [[]|] eqn:?
    | |- context [0 <? ?l] => destruct (Z.ltb_spec 0 l)
    end;
  cbn [fst snd pc vars log requestCount requestedTRCount receivedCount sentCount].

Lemma int_add_exact (a b : Z) :
  INT_MIN <= a + b <= INT_MAX -> int_add a b = a + b.
Proof.
  unfold INT_MIN, INT_MAX, int_add, int_wrap. intros H.
  rewrite Z.mod_small by lia. lia.
Qed.

(** Past [INT_MAX] the model wraps round. *)
Example int_add_wraps_at_INT_MAX : int_add INT_MAX 1 = INT_MIN.
Proof. reflexivity. Qed.

Section Run.

Variable cfg : Config.
Variable w : World.

Lemma do_work_S (t : nat) :
  do_work cfg w (S t) = step cfg w t (do_work cfg w t).
Proof. reflexivity. Qed.

Lemma step_pc (t : nat) (m : Machine) :
  pc (step cfg w t m) = fst (fst (step_core cfg w t (pc m) (vars m))).
Proof. unfold step. destruct (step_core _ _ _ _ _) as [[p c] e]. reflexivity. Qed.

Lemma step_vars (t : nat) (m : Machine) :
  vars (step cfg w t m) = snd (fst (step_core cfg w t (pc m) (vars m))).
Proof. unfold step. destruct (step_core _ _ _ _ _) as [[p c] e]. reflexivity. Qed.

Lemma step_log (t : nat) (m : Machine) :
  log (step cfg w t m) = log m ++ snd (step_core cfg w t (pc m) (vars m)).
Proof. unfold step. destruct (step_core _ _ _ _ _) as [[p c] e]. reflexivity. Qed.

Lemma log_S (t : nat) :
  log (do_work cfg w (S t)) = log (do_work cfg w t) ++ events_at cfg w t.
Proof. rewrite do_work_S, step_log. reflexivity. Qed.

(** A property of the control point and the counters that holds on entry
    and is kept by every step holds throughout. *)
Lemma do_work_invariant (P : Pc -> Counters -> Prop) :
  P (pc do_work_entry) (vars do_work_entry) ->
  (forall t p c, P p c ->
     P (fst (fst (step_core cfg w t p c))) (snd (fst (step_core cfg w t p c)))) ->
  forall t, P (pc (do_work cfg w t)) (vars (do_work cfg w t)).
Proof.
  intros H0 Hstep t. induction t as [|t IH]; [exact H0|].
  rewrite do_work_S, step_pc, step_vars. apply Hstep, IH.
Qed.

(** Once returned, the thread does nothing. *)
Lemma returned_stays (t k : nat) :
  pc (do_work cfg w t) = Returned ->
  do_work cfg w (t + k) = do_work cfg w t.
Proof.
  intros H. induction k as [|k IH].
  - now rewrite Nat.add_0_r.
  - rewrite Nat.add_succ_r, do_work_S, IH.
    destruct (do_work cfg w t) as [p c l]. cbn in H. subst p.
    unfold step. cbn. now rewrite app_nil_r.
Qed.

(** No line writes the counter declared at line 100. *)
Lemma requestedTRCount_never_written (t : nat) :
  requestedTRCount (vars (do_work cfg w t)) = 0.
Proof.
  apply (do_work_invariant (fun _ c => requestedTRCount c = 0)).
  - reflexivity.
  - clear t. intros t p c H. step_cases p; exact H.
Qed.

(** Wherever [trigRecLeftToReceive] may still be decremented it is
    positive. *)
Lemma owed_is_positive (t : nat) :
  match pc (do_work cfg w t) with
  | AtOwedFlag l | AtReceiveFlag l | AtReceive l => 0 < l
  | _ => True
  end.
Proof.
  apply (do_work_invariant
           (fun p _ => match p with
                       | AtOwedFlag l | AtReceiveFlag l | AtReceive l => 0 < l
                       | _ => True
                       end)).
  - exact I.
  - clear t. intros t p c H. revert H. step_cases p; auto.
Qed.

(** Every completed call costs two steps, the load of the flag and the
    call, so on a run of at most [INT_MAX] steps the counters stay far from
    overflowing. *)
Lemma progress_bound (t : nat) :
  Z.of_nat t <= INT_MAX ->
  0 <= requestCount (vars (do_work cfg w t)) /\
  0 <= receivedCount (vars (do_work cfg w t)) /\
  0 <= sentCount (vars (do_work cfg w t)) /\
  2 * (requestCount (vars (do_work cfg w t))
       + receivedCount (vars (do_work cfg w t))
       + sentCount (vars (do_work cfg w t)))
  + (if at_endpoint_call (pc (do_work cfg w t)) then 1 else 0)
  <= Z.of_nat t.
Proof.
  induction t as [|t IH]; intros Hb; [cbn; lia|].
  rewrite Nat2Z.inj_succ in *. specialize (IH ltac:(lia)).
  rewrite do_work_S, step_pc, step_vars.
  destruct (do_work cfg w t) as [p c l]. cbn [pc vars log] in *.
  unfold INT_MAX in Hb. revert IH.
  step_cases p; cbn [at_endpoint_call]; intros IH;
    rewrite ?int_add_exact by (unfold INT_MIN, INT_MAX; lia); lia.
Qed.



End Run.

(** ** Timeouts and warnings *)

Section Warnings.

Variable cfg : Config.
Variable w : World.

(** Lines 121-128: a request-send timeout is followed by one warning and
    control goes back to the flag of line 104. *)
Lemma request_send_timeout_warned (t : nat) :
  pc (do_work cfg w t) = AtRequestSend ->
  requestSender_send w t = TransportTimeoutExpired ->
  events_at cfg w t
  = [EvRequestSend (TRsToRequestEachTime cfg) TransportTimeoutExpired;
     EvWarning RequestAddress (requestSendTimeout_ cfg)]
  /\ pc (do_work cfg w (S t)) = AtOuterFlag.
Proof.
  intros Hpc Hto. rewrite do_work_S, step_pc. unfold events_at.
  rewrite Hpc. cbn. rewrite Hto. now split.
Qed.

(** Lines 151-160: a receive timeout is followed by one warning and
    control goes back to the flag of line 142. *)
Lemma receive_timeout_warned (t : nat) (l : Z) :
  pc (do_work cfg w t) = AtReceive l ->
  dataReceiver_receive w t = TransportTimeoutExpired ->
  events_at cfg w t
  = [EvReceive TransportTimeoutExpired;
     EvWarning DataSource (dataReceiveTimeout_ cfg)]
  /\ pc (do_work cfg w (S t)) = AtReceiveFlag l.
Proof.
  intros Hpc Hto. rewrite do_work_S, step_pc. unfold events_at.
  rewrite Hpc. cbn. rewrite Hto. now split.
Qed.

(** Lines 179-183: a result-send timeout is followed by nothing at all;
    control goes back to the flag of line 170. *)
Lemma result_send_timeout_silent (t : nat) (r : TriggerRecord) (l : Z) :
  pc (do_work cfg w t) = AtResultSend r l ->
  resultSender_send w t = TransportTimeoutExpired ->
  events_at cfg w t = [EvResultSend r TransportTimeoutExpired]
  /\ pc (do_work cfg w (S t)) = AtSendFlag r l.
Proof.
  intros Hpc Hto. rewrite do_work_S, step_pc. unfold events_at.
  rewrite Hpc. cbn. rewrite Hto. now split.
Qed.

End Warnings.

(** C1.  The claim: every timeout of any of the three endpoint operations is
    followed by exactly one warning.  The code at a result-send timeout: in
    the run where only the result send of step 6 times out, that step emits
    the failed send and nothing else, and the whole log holds one timeout
    and no warning. *)
Theorem result_send_timeout_emits_no_warning :
  pc (do_work source_config world_result_timeout 6) = AtResultSend 7%nat 0 /\
  events_at source_config world_result_timeout 6
  = [EvResultSend 7%nat TransportTimeoutExpired] /\
  pc (do_work source_config world_result_timeout 11) = Returned /\
  count_events is_timeout (log (do_work source_config world_result_timeout 11))
  = 1%nat /\
  count_events is_warning (log (do_work source_config world_result_timeout 11))
  = 0%nat.
Proof. vm_compute. repeat split. Qed.

(** ** Counters *)

(** C2.  The claim: the items-requested counter equals N times the
    requests-sent counter at every point.  The code: in the run where every
    endpoint answers at once, the request send of step 1 completes; after it
    requestCount is 1 while requestedTRCount, the counter declared at line
    100, is still 0, because line 132 adds the batch size to another
    identifier.  The equation fails there for the batch size of the
    source. *)
Theorem items_requested_not_updated_by_completed_request :
  pc (do_work source_config world_all_prompt 1) = AtRequestSend /\
  requestSender_send world_all_prompt 1 = Completed tt /\
  requestCount (vars (do_work source_config world_all_prompt 2)) = 1 /\
  requestedTRCount (vars (do_work source_config world_all_prompt 2)) = 0 /\
  requestedTRCount (vars (do_work source_config world_all_prompt 2))
  <> TRsToRequestEachTime source_config
     * requestCount (vars (do_work source_config world_all_prompt 2)).
Proof. vm_compute. repeat split. discriminate. Qed.

(** C4.  Each step either is a completed request send, which increments
    requests-sent and leaves the other three counters as they are, or
    leaves requests-sent and items-requested as they are; a step taken at
    the request send that times out, or at the flag of the outer loop,
    changes none of the four counters. *)
Theorem request_counters_move_only_on_completed_send
    (cfg : Config) (w : World) (t : nat) :
  (pc (do_work cfg w t) = AtRequestSend /\
   requestSender_send w t = Completed tt /\
   requestCount (vars (do_work cfg w (S t)))
   = int_add (requestCount (vars (do_work cfg w t))) 1 /\
   requestedTRCount (vars (do_work cfg w (S t)))
   = requestedTRCount (vars (do_work cfg w t)) /\
   receivedCount (vars (do_work cfg w (S t)))
   = receivedCount (vars (do_work cfg w t)) /\
   sentCount (vars (do_work cfg w (S t)))
   = sentCount (vars (do_work cfg w t)))
  \/
  (~ (pc (do_work cfg w t) = AtRequestSend /\
      requestSender_send w t = Completed tt) /\
   requestCount (vars (do_work cfg w (S t)))
   = requestCount (vars (do_work cfg w t)) /\
   requestedTRCount (vars (do_work cfg w (S t)))
   = requestedTRCount (vars (do_work cfg w t)) /\
   (pc (do_work cfg w t) = AtRequestSend \/ pc (do_work cfg w t) = AtOuterFlag ->
    vars (do_work cfg w (S t)) = vars (do_work cfg w t))).
Proof.
  rewrite do_work_S, step_vars.
  destruct (do_work cfg w t) as [p c l]. cbn [pc vars].
  step_cases p.
  all: try (left; split_ands; reflexivity).
  all: right; split_ands; try reflexivity; try tauto.
  all: try (intros [? ?]; congruence).
  all: try (intros [?|?]; congruence).
Qed.





(** ** The summary *)

Lemma summaries_app (l1 l2 : list Event) :
  summaries (l1 ++ l2) = summaries l1 ++ summaries l2.
Proof. apply flat_map_app. Qed.

(** The log holds no summary while the loop runs and exactly the summary of
    the final counters once the function has returned. *)
Lemma summaries_of_log (cfg : Config) (w : World) (t : nat) :
  summaries (log (do_work cfg w t))
  = match pc (do_work cfg w t) with
    | Returned => [summary cfg (vars (do_work cfg w t))]
    | _ => []
    end.
Proof.
  induction t as [|t IH]; [reflexivity|].
  rewrite do_work_S, step_pc, step_vars, step_log, summaries_app, IH.
  destruct (do_work cfg w t) as [p c l]. cbn [pc vars log].
  step_cases p; reflexivity.
Qed.

(** C5, as the code has it.  At every step the log holds no summary while
    the loop runs and exactly one once the function has returned; that
    summary carries the final values of requests-sent, items-received and
    items-forwarded (next to a per-request figure and a processed figure
    that the loop does not maintain) and has no entry for the cumulative
    items-requested counter. *)
Theorem exit_emits_one_summary_of_three_counters
    (cfg : Config) (w : World) (t : nat) :
  summaries (log (do_work cfg w t))
  = match pc (do_work cfg w t) with
    | Returned => [summary cfg (vars (do_work cfg w t))]
    | _ => []
    end /\
  In (Id_requestCount, requestCount (vars (do_work cfg w t)))
     (summary cfg (vars (do_work cfg w t))) /\
  In (Id_receivedCount, receivedCount (vars (do_work cfg w t)))
     (summary cfg (vars (do_work cfg w t))) /\
  In (Id_sentCount, sentCount (vars (do_work cfg w t)))
     (summary cfg (vars (do_work cfg w t))) /\
  reported (summary cfg (vars (do_work cfg w t))) Id_requestedTRCount = false.
Proof.
  split; [apply summaries_of_log|].
  unfold summary. cbn [In reported map fst existsb Ident_eqb orb]. tauto.
Qed.

(** C5, as the claim has it, fails: with the configuration of the source,
    the run of [world_early_timeouts] has returned after fifteen steps, and
    no summary in its log reports all four counters. *)
Lemma summary_does_not_report_items_requested :
  pc (do_work source_config world_early_timeouts 15) = Returned /\
  ~ (exists s,
        In (EvInfo s) (log (do_work source_config world_early_timeouts 15)) /\
        summary_reports_all_four
          (vars (do_work source_config world_early_timeouts 15)) s).
Proof.
  split; [reflexivity|].
  intros [s [Hin [_ [Hreq _]]]].
  vm_compute in Hin.
  repeat (destruct Hin as [Hin|Hin]; [try discriminate Hin|]); [|contradiction].
  injection Hin as <-. vm_compute in Hreq.
  repeat (destruct Hreq as [Hreq|Hreq]; [discriminate Hreq|]). contradiction.
Qed.

(** ** Cancellation *)

Section Cancellation.

Variable cfg : Config.
Variable w : World.

(** A flag that reads false moves the thread one loop level outwards
    without touching an endpoint or a counter. *)
Lemma false_flag_step (t : nat) (p : Pc) (c : Counters) :
  at_endpoint_call p = false ->
  running_flag w t = false ->
  no_endpoint_op (snd (step_core cfg w t p c)) = true /\
  at_endpoint_call (fst (fst (step_core cfg w t p c))) = false /\
  snd (fst (step_core cfg w t p c)) = c /\
  (exit_rank (fst (fst (step_core cfg w t p c))) <= Nat.pred (exit_rank p))%nat.
Proof.
  intros Hp Hflag. destruct p; try discriminate Hp;
    cbn [step_core after_receive_loop send_loop_head negb];
    rewrite ?Hflag; unfold owed_loop_head;
    repeat match goal with
      | |- context [0 <? ?l] => destruct (0 <? l)
      end; cbn; split_ands; (reflexivity || lia).
Qed.

(** Every transport call is entered from a load of the flag that read
    true. *)
Lemma endpoint_call_guarded (t : nat) :
  at_endpoint_call (pc (do_work cfg w (S t))) = true ->
  at_flag_check (pc (do_work cfg w t)) = true /\ running_flag w t = true.
Proof.
  rewrite do_work_S, step_pc.
  destruct (do_work cfg w t) as [p c l]. cbn [pc vars].
  step_cases p; cbn; intros Hcall; try discriminate Hcall; now split.
Qed.

Lemma exit_rank_0 (p : Pc) : exit_rank p = 0%nat -> p = Returned.
Proof. destruct p; cbn; intros H; (reflexivity || discriminate H). Qed.

Lemma flag_check_rank (p : Pc) :
  at_flag_check p = true -> (exit_rank p <= 3)%nat /\ at_endpoint_call p = false.
Proof. destruct p; cbn; intros H; try discriminate H; split; (lia || reflexivity). Qed.

(** With the flag false from [t0] on, a thread that is not inside a
    transport call at [t0] makes no further call and loses one loop level
    per step. *)
Lemma stopped_run (t0 k : nat) :
  (forall t, (t0 <= t)%nat -> running_flag w t = false) ->
  at_endpoint_call (pc (do_work cfg w t0)) = false ->
  at_endpoint_call (pc (do_work cfg w (t0 + k))) = false /\
  no_endpoint_op (events_at cfg w (t0 + k)) = true /\
  (exit_rank (pc (do_work cfg w (t0 + k)))
   <= exit_rank (pc (do_work cfg w t0)) - k)%nat /\
  vars (do_work cfg w (t0 + k)) = vars (do_work cfg w t0).
Proof.
  intros Hflag H0. induction k as [|k IH].
  - rewrite Nat.add_0_r. split_ands; try easy; try lia.
    apply (false_flag_step t0 _ (vars (do_work cfg w t0)) H0).
    apply Hflag. lia.
  - destruct IH as (Hcall & _ & Hrank & Hvars).
    assert (Hf : running_flag w (t0 + k) = false) by (apply Hflag; lia).
    destruct (false_flag_step (t0 + k) _ (vars (do_work cfg w (t0 + k))) Hcall Hf)
      as (_ & Hcall' & Hvars' & Hrank').
    rewrite Nat.add_succ_r, do_work_S.
    assert (Hcall'' : at_endpoint_call (pc (step cfg w (t0 + k) (do_work cfg w (t0 + k)))) = false)
      by (rewrite step_pc; exact Hcall').
    split_ands.
    + exact Hcall''.
    + unfold events_at. rewrite do_work_S.
      apply false_flag_step; [exact Hcall''|]. apply Hflag. lia.
    + rewrite step_pc. lia.
    + rewrite step_vars, Hvars'. exact Hvars.
Qed.

End Cancellation.

(** C3.  When the flag reads false at the head of the outer loop, of the
    still-owed loop, of the receive loop or of the send loop, that step
    performs no transport call, does not move to one, changes no counter and
    leaves the thread strictly fewer loop levels away from returning; at the
    head of the outer loop the function returns and no send or receive
    follows. *)
Theorem cancelled_stage_makes_no_endpoint_call
    (cfg : Config) (w : World) (t : nat) :
  at_flag_check (pc (do_work cfg w t)) = true ->
  running_flag w t = false ->
  no_endpoint_op (events_at cfg w t) = true /\
  at_endpoint_call (pc (do_work cfg w (S t))) = false /\
  vars (do_work cfg w (S t)) = vars (do_work cfg w t) /\
  (exit_rank (pc (do_work cfg w (S t))) < exit_rank (pc (do_work cfg w t)))%nat /\
  (pc (do_work cfg w t) = AtOuterFlag ->
   forall k, pc (do_work cfg w (S t + k)) = Returned /\
             no_endpoint_op (events_at cfg w (t + k)) = true).
Proof.
  intros Hchk Hflag.
  destruct (flag_check_rank _ Hchk) as [_ Hcall].
  destruct (false_flag_step cfg w t _ (vars (do_work cfg w t)) Hcall Hflag)
    as (Hev & Hcall' & Hvars & Hrank).
  assert (Hpos : (1 <= exit_rank (pc (do_work cfg w t)))%nat)
    by (destruct (pc (do_work cfg w t)); cbn in *; (lia || discriminate)).
  split_ands.
  - exact Hev.
  - rewrite do_work_S, step_pc. exact Hcall'.
  - rewrite do_work_S, step_vars. exact Hvars.
  - rewrite do_work_S, step_pc. lia.
  - intros Hpc k.
    assert (Hret : pc (do_work cfg w (S t)) = Returned).
    { rewrite do_work_S, step_pc, Hpc. cbn. now rewrite Hflag. }
    rewrite (returned_stays cfg w (S t) k Hret). split; [exact Hret|].
    destruct k as [|k]; [now rewrite Nat.add_0_r|].
    unfold events_at. rewrite Nat.add_succ_r, <- Nat.add_succ_l.
    rewrite (returned_stays cfg w (S t) k Hret), Hret. reflexivity.
Qed.

Lemma cancelled_stage_makes_no_endpoint_call_witness :
  at_flag_check (pc (do_work source_config world_early_timeouts 14)) = true /\
  running_flag world_early_timeouts 14 = false /\
  no_endpoint_op (events_at source_config world_early_timeouts 14) = true /\
  at_endpoint_call (pc (do_work source_config world_early_timeouts 15)) = false.
Proof.
  split; [reflexivity|]. split; [reflexivity|].
  destruct (cancelled_stage_makes_no_endpoint_call
              source_config world_early_timeouts 14 eq_refl eq_refl)
    as (H1 & H2 & _).
  split; [exact H1 | exact H2].
Defined.

(** C10.  If the thread stands at a load of the flag at step [t0] and the
    flag reads false from then on, no later step performs a send or a
    receive, the function has returned three steps later, and the log then
    holds exactly one summary, that of the counters as they stood at [t0].
    Besides, every transport call is entered from a load of the flag that
    read true. *)
Theorem no_endpoint_call_once_flag_reads_false
    (cfg : Config) (w : World) (t0 : nat) :
  (forall t, (t0 <= t)%nat -> running_flag w t = false) ->
  at_flag_check (pc (do_work cfg w t0)) = true ->
  (forall t, (t0 <= t)%nat -> no_endpoint_op (events_at cfg w t) = true) /\
  pc (do_work cfg w (t0 + 3)) = Returned /\
  summaries (log (do_work cfg w (t0 + 3)))
  = [summary cfg (vars (do_work cfg w t0))] /\
  (forall t, at_endpoint_call (pc (do_work cfg w (S t))) = true ->
             at_flag_check (pc (do_work cfg w t)) = true /\
             running_flag w t = true).
Proof.
  intros Hflag Hchk.
  destruct (flag_check_rank _ Hchk) as [Hrank Hcall].
  assert (Hret : pc (do_work cfg w (t0 + 3)) = Returned).
  { apply exit_rank_0.
    destruct (stopped_run cfg w t0 3 Hflag Hcall) as (_ & _ & H & _). lia. }
  split_ands.
  - intros t Ht. replace t with (t0 + (t - t0))%nat by lia.
    apply (stopped_run cfg w t0 (t - t0) Hflag Hcall).
  - exact Hret.
  - rewrite summaries_of_log, Hret.
    destruct (stopped_run cfg w t0 3 Hflag Hcall) as (_ & _ & _ & Hvars).
    now rewrite Hvars.
  - apply endpoint_call_guarded.
Qed.

Lemma no_endpoint_call_once_flag_reads_false_witness :
  (forall t, (13 <= t)%nat -> running_flag world_early_timeouts t = false) /\
  at_flag_check (pc (do_work source_config world_early_timeouts 13)) = true /\
  pc (do_work source_config world_early_timeouts (13 + 3)) = Returned /\
  summaries (log (do_work source_config world_early_timeouts (13 + 3)))
  = [summary source_config (vars (do_work source_config world_early_timeouts 13))].
Proof.
  assert (Hflag : forall t, (13 <= t)%nat ->
                            running_flag world_early_timeouts t = false).
  { intros t Ht. change ((t <? 12)%nat = false). apply Nat.ltb_ge. lia. }
  split; [exact Hflag|]. split; [reflexivity|].
  destruct (no_endpoint_call_once_flag_reads_false
              source_config world_early_timeouts 13 Hflag eq_refl)
    as (_ & H2 & H3 & _).
  split; [exact H2 | exact H3].
Defined.

(** A flag that reads false once and true afterwards does not stop the
    loop: in [world_flag_blip] the false load of step 7 ends the batch, and
    the thread is back at the request send at step 9. *)
Example flag_blip_resumes :
  running_flag world_flag_blip 7 = false /\
  pc (do_work config_batch_of_two world_flag_blip 7) = AtOwedFlag 1 /\
  pc (do_work config_batch_of_two world_flag_blip 9) = AtRequestSend.
Proof. repeat split. Qed.

(** ** Batches *)

Section Batches.

Variable cfg : Config.
Variable w : World.

(** Line 137: a completed request send starts a batch of the
    configured size. *)
Lemma request_completed_resets_owed (t : nat) :
  pc (do_work cfg w t) = AtRequestSend ->
  requestSender_send w t = Completed tt ->
  pc (do_work cfg w (S t)) = owed_loop_head (TRsToRequestEachTime cfg).
Proof.
  intros Hpc Hok. rewrite do_work_S, step_pc, Hpc. cbn. now rewrite Hok.
Qed.

(** Line 138 with the flag false: the batch is left and control is at
    line 104, where [trigRecLeftToReceive] is out of scope. *)
Lemma owed_loop_cancelled (t : nat) (l : Z) :
  pc (do_work cfg w t) = AtOwedFlag l ->
  running_flag w t = false ->
  pc (do_work cfg w (S t)) = AtOuterFlag.
Proof.
  intros Hpc Hflag. rewrite do_work_S, step_pc, Hpc. cbn. now rewrite Hflag.
Qed.

End Batches.

(** C6.  When the still-owed loop is left on a false flag with [l] records
    of the batch outstanding, [l] is positive and is dropped: the thread is
    back at the head of the outer loop, where no remainder is in scope, and
    any later completed request send starts a batch of the full size N,
    whatever [l] was. *)
Theorem remainder_discarded_on_next_request
    (cfg : Config) (w : World) (t t' : nat) (l : Z) :
  1 <= TRsToRequestEachTime cfg ->
  pc (do_work cfg w t) = AtOwedFlag l ->
  running_flag w t = false ->
  (t < t')%nat ->
  pc (do_work cfg w t') = AtRequestSend ->
  requestSender_send w t' = Completed tt ->
  0 < l /\
  pc (do_work cfg w (S t)) = AtOuterFlag /\
  owed (pc (do_work cfg w (S t))) = None /\
  pc (do_work cfg w (S t')) = AtOwedFlag (TRsToRequestEachTime cfg) /\
  owed (pc (do_work cfg w (S t'))) = Some (TRsToRequestEachTime cfg).
Proof.
  intros HN Hpc Hflag _ Hpc' Hok.
  pose proof (owed_is_positive cfg w t) as Hl. rewrite Hpc in Hl.
  rewrite (owed_loop_cancelled cfg w t l Hpc Hflag).
  rewrite (request_completed_resets_owed cfg w t' Hpc' Hok).
  unfold owed_loop_head.
  destruct (Z.ltb_spec 0 (TRsToRequestEachTime cfg)); [|lia].
  cbn. split_ands; (reflexivity || lia).
Qed.

Lemma remainder_discarded_on_next_request_witness :
  1 <= TRsToRequestEachTime config_batch_of_two /\
  pc (do_work config_batch_of_two world_flag_blip 7) = AtOwedFlag 1 /\
  running_flag world_flag_blip 7 = false /\
  pc (do_work config_batch_of_two world_flag_blip 9) = AtRequestSend /\
  pc (do_work config_batch_of_two world_flag_blip 10) = AtOwedFlag 2.
Proof.
  split; [cbn; lia|]. split; [reflexivity|]. split; [reflexivity|].
  split; [reflexivity|].
  assert (HN : 1 <= TRsToRequestEachTime config_batch_of_two) by (cbn; lia).
  assert (Hlt : (7 < 9)%nat) by lia.
  destruct (remainder_discarded_on_next_request
              config_batch_of_two world_flag_blip 7 9 1
              HN eq_refl eq_refl Hlt eq_refl eq_refl)
    as (_ & _ & _ & H & _).
  exact H.
Defined.

(** ** The send loop *)

Lemma count_events_app (f : Event -> bool) (l1 l2 : list Event) :
  count_events f (l1 ++ l2) = (count_events f l1 + count_events f l2)%nat.
Proof. unfold count_events. now rewrite filter_app, length_app. Qed.

Lemma step_at (cfg : Config) (w : World) (t : nat) (p : Pc) (c : Counters) :
  pc (do_work cfg w t) = p ->
  vars (do_work cfg w t) = c ->
  pc (do_work cfg w (S t)) = fst (fst (step_core cfg w t p c)) /\
  vars (do_work cfg w (S t)) = snd (fst (step_core cfg w t p c)) /\
  log (do_work cfg w (S t)) = log (do_work cfg w t) ++ snd (step_core cfg w t p c).
Proof.
  intros <- <-. rewrite do_work_S, step_pc, step_vars, step_log. auto.
Qed.

Lemma concat_repeat_snoc (A : Type) (r : list A) (k : nat) :
  concat (repeat r (S k)) = concat (repeat r k) ++ r.
Proof.
  induction k as [|k IH]; cbn [repeat concat] in *.
  - now rewrite app_nil_r.
  - rewrite <- app_assoc. f_equal. exact IH.
Qed.

(** Line 177 is the only place that moves [sentCount]: a step changes it
    exactly when it is a result send that completes, and then by one. *)
Lemma sentCount_moves_on_completed_result_send
    (cfg : Config) (w : World) (t : nat) :
  sentCount (vars (do_work cfg w (S t)))
  = if result_send_completes w t (pc (do_work cfg w t))
    then int_add (sentCount (vars (do_work cfg w t))) 1
    else sentCount (vars (do_work cfg w t)).
Proof.
  rewrite do_work_S, step_vars.
  destruct (do_work cfg w t) as [p c l]. cbn [pc vars log].
  destruct p; cbn [step_core after_receive_loop send_loop_head negb fst snd
                   result_send_completes];
    repeat match goal with
      | |- context [if running_flag ?w ?t then _ else _] =>
          destruct (running_flag w t)
      | |- context [match requestSender_send ?w ?t with _ => _ end] =>
          destruct (requestSender_send w t)
      | |- context [match dataReceiver_receive ?w ?t with _ => _ end] =>
          destruct (dataReceiver_receive w t)
      | |- context [match resultSender_send ?w ?t with _ => _ end] =>
          destruct (resultSender_send w t)
      end; reflexivity.
Qed.

(** One round of the loop of line 170 in which the send times out: the
    flag is loaded, the send is attempted, and the thread is back at the
    flag with the same record. *)
Lemma send_loop_rounds (cfg : Config) (w : World) (t0 k : nat)
    (r : TriggerRecord) (l : Z) :
  pc (do_work cfg w t0) = AtSendFlag r l ->
  (forall i, (i < k)%nat ->
     running_flag w (t0 + 2 * i) = true /\
     resultSender_send w (t0 + 2 * i + 1) = TransportTimeoutExpired) ->
  pc (do_work cfg w (t0 + 2 * k)) = AtSendFlag r l /\
  vars (do_work cfg w (t0 + 2 * k)) = vars (do_work cfg w t0) /\
  log (do_work cfg w (t0 + 2 * k))
  = log (do_work cfg w t0) ++ concat (repeat (send_retry_round r) k).
Proof.
  intros Hpc. induction k as [|k IH]; intros Henv.
  - rewrite Nat.mul_0_r, Nat.add_0_r. cbn. now rewrite app_nil_r.
  - destruct IH as (Hp & Hv & Hl); [intros i Hi; apply Henv; lia|].
    destruct (Henv k (Nat.lt_succ_diag_r k)) as [Hf1 Hr2].
    destruct (step_at cfg w _ _ _ Hp eq_refl) as (Hp1 & Hv1 & Hl1).
    cbn [step_core] in Hp1, Hv1, Hl1. rewrite Hf1 in Hp1, Hv1, Hl1.
    cbn [fst snd] in Hp1, Hv1, Hl1.
    destruct (step_at cfg w _ _ _ Hp1 eq_refl) as (Hp2 & Hv2 & Hl2).
    cbn [step_core] in Hp2, Hv2, Hl2.
    replace (S (t0 + 2 * k)) with (t0 + 2 * k + 1)%nat in Hp2, Hv2, Hl2 by lia.
    rewrite Hr2 in Hp2, Hv2, Hl2.
    cbn [send_loop_head negb fst snd] in Hp2, Hv2, Hl2.
    replace (t0 + 2 * S k)%nat with (S (t0 + 2 * k + 1)) by lia.
    split_ands.
    + exact Hp2.
    + rewrite Hv2. replace (t0 + 2 * k + 1)%nat with (S (t0 + 2 * k)) by lia.
      now rewrite Hv1.
    + rewrite Hl2. replace (t0 + 2 * k + 1)%nat with (S (t0 + 2 * k)) by lia.
      rewrite Hl1, Hl, concat_repeat_snoc, <- !app_assoc. reflexivity.
Qed.

(** C7.  After a record [r] has been received, for as many rounds as the
    flag reads true and the result send times out the thread loads the flag
    and attempts the send of [r] again, and nothing else: after [k] such
    rounds it stands at the head of the send loop with [r], the log has
    grown by the receive and [k] times (true load, timed-out send of [r]),
    and the counters are as the receive left them.  If the flag then reads
    true and the send completes, that send of [r] is logged, items-forwarded
    is incremented and only then does control go back to the still-owed
    loop.  At every step items-forwarded changes exactly when the step is a
    result send that completes, and then by one. *)
Theorem received_record_is_sent_before_anything_else
    (cfg : Config) (w : World) (t k : nat) (r : TriggerRecord) (l : Z) :
  pc (do_work cfg w t) = AtReceive l ->
  dataReceiver_receive w t = Completed r ->
  (forall i, (i < k)%nat ->
     running_flag w (S t + 2 * i) = true /\
     resultSender_send w (S t + 2 * i + 1) = TransportTimeoutExpired) ->
  pc (do_work cfg w (S t + 2 * k)) = AtSendFlag r (l - 1) /\
  receivedCount (vars (do_work cfg w (S t + 2 * k)))
  = int_add (receivedCount (vars (do_work cfg w t))) 1 /\
  sentCount (vars (do_work cfg w (S t + 2 * k)))
  = sentCount (vars (do_work cfg w t)) /\
  log (do_work cfg w (S t + 2 * k))
  = log (do_work cfg w t)
    ++ EvReceive (Completed r) :: concat (repeat (send_retry_round r) k) /\
  (running_flag w (S t + 2 * k) = true ->
   resultSender_send w (S (S t + 2 * k)) = Completed tt ->
   pc (do_work cfg w (S (S (S t + 2 * k)))) = owed_loop_head (l - 1) /\
   sentCount (vars (do_work cfg w (S (S (S t + 2 * k)))))
   = int_add (sentCount (vars (do_work cfg w t))) 1 /\
   log (do_work cfg w (S (S (S t + 2 * k))))
   = log (do_work cfg w (S t + 2 * k))
     ++ [EvLoad true; EvResultSend r (Completed tt)]) /\
  (forall n,
     sentCount (vars (do_work cfg w (S n)))
     = if result_send_completes w n (pc (do_work cfg w n))
       then int_add (sentCount (vars (do_work cfg w n))) 1
       else sentCount (vars (do_work cfg w n))).
Proof.
  intros Hpc Hrecv Henv.
  destruct (step_at cfg w t _ _ Hpc eq_refl) as (Hp0 & Hv0 & Hl0).
  cbn [step_core] in Hp0, Hv0, Hl0. rewrite Hrecv in Hp0, Hv0, Hl0.
  cbn [after_receive_loop send_loop_head negb fst snd] in Hp0, Hv0, Hl0.
  destruct (send_loop_rounds cfg w (S t) k r (l - 1) Hp0 Henv) as (Hp & Hv & Hl).
  split_ands.
  - exact Hp.
  - now rewrite Hv, Hv0.
  - now rewrite Hv, Hv0.
  - rewrite Hl, Hl0, <- app_assoc. reflexivity.
  - intros Hflag Hok.
    destruct (step_at cfg w _ _ _ Hp eq_refl) as (Hp1 & Hv1 & Hl1).
    cbn [step_core] in Hp1, Hv1, Hl1. rewrite Hflag in Hp1, Hv1, Hl1.
    cbn [fst snd] in Hp1, Hv1, Hl1.
    destruct (step_at cfg w _ _ _ Hp1 eq_refl) as (Hp2 & Hv2 & Hl2).
    cbn [step_core] in Hp2, Hv2, Hl2. rewrite Hok in Hp2, Hv2, Hl2.
    cbn [send_loop_head negb fst snd] in Hp2, Hv2, Hl2.
    split_ands.
    + exact Hp2.
    + rewrite Hv2, Hv1, Hv, Hv0. reflexivity.
    + rewrite Hl2, Hl1, <- app_assoc. reflexivity.
  - apply sentCount_moves_on_completed_result_send.
Qed.

Lemma received_record_is_sent_before_anything_else_witness :
  pc (do_work source_config world_result_timeout 4) = AtReceive 1 /\
  dataReceiver_receive world_result_timeout 4 = Completed 7%nat /\
  pc (do_work source_config world_result_timeout (5 + 2 * 1))
  = AtSendFlag 7%nat (1 - 1) /\
  log (do_work source_config world_result_timeout (5 + 2 * 1))
  = log (do_work source_config world_result_timeout 4)
    ++ EvReceive (Completed 7%nat) :: concat (repeat (send_retry_round 7%nat) 1) /\
  sentCount (vars (do_work source_config world_result_timeout 9))
  = int_add (sentCount (vars (do_work source_config world_result_timeout 4))) 1.
Proof.
  split; [reflexivity|]. split; [reflexivity|].
  assert (Henv : forall i, (i < 1)%nat ->
            running_flag world_result_timeout (5 + 2 * i) = true /\
            resultSender_send world_result_timeout (5 + 2 * i + 1)
            = TransportTimeoutExpired).
  { intros i Hi. assert (i = 0%nat) as -> by lia. split; reflexivity. }
  destruct (received_record_is_sent_before_anything_else
              source_config world_result_timeout 4 1 7%nat 1 eq_refl eq_refl Henv)
    as (H1 & _ & _ & H4 & H5 & _).
  destruct (H5 eq_refl eq_refl) as (_ & H6 & _).
  split; [exact H1|]. split; [exact H4 | exact H6].
Defined.

(** ** Two runs written out *)

(** [stop] before the first load of the flag: the function returns at once
    and the summary reports zeros. *)
Example stopped_before_first_request :
  log (do_work source_config world_stopped 1)
  = [EvLoad false;
     EvInfo [(Id_requestCount, 0); (Id_TRsPerRequest, 1);
             (Id_receivedCount, 0); (Id_processedCount, 0);
             (Id_sentCount, 0)]]
  /\ pc (do_work source_config world_stopped 1) = Returned.
Proof. split; reflexivity. Qed.

(** One request-send timeout and one receive timeout: one warning each,
    naming the endpoint and its timeout. *)
Example early_timeouts_are_warned :
  filter is_warning (log (do_work source_config world_early_timeouts 15))
  = [EvWarning RequestAddress 100; EvWarning DataSource 100]
  /\ count_events is_timeout (log (do_work source_config world_early_timeouts 15))
     = 2%nat.
Proof. split; reflexivity. Qed.

(** ** What the log says about the counters *)

Lemma filter_warning_app (l1 l2 : list Event) :
  filter is_warning (l1 ++ l2) = filter is_warning l1 ++ filter is_warning l2.
Proof. apply filter_app. Qed.

Lemma last_received_app (last : option TriggerRecord) (l1 l2 : list Event) :
  last_received last (l1 ++ l2) = last_received (last_received last l1) l2.
Proof.
  revert last. induction l1 as [|e l1 IH]; intros last; [reflexivity|].
  destruct e as [| | [r|] | | |]; cbn; apply IH.
Qed.

Lemma forwards_last_received_app (last : option TriggerRecord)
    (l1 l2 : list Event) :
  forwards_last_received last (l1 ++ l2)
  = forwards_last_received last l1
    && forwards_last_received (last_received last l1) l2.
Proof.
  revert last. induction l1 as [|e l1 IH]; intros last; [reflexivity|].
  destruct e as [| | [r|] | r o | |]; cbn; try apply IH.
  destruct last as [r'|]; [|reflexivity].
  rewrite IH. now rewrite andb_assoc.
Qed.

(** X1.  On a run of at most [INT_MAX] steps, on which no increment
    overflows, requestCount is the number of completed request sends in the
    log, receivedCount the number of completed receives and sentCount the
    number of completed result sends; requestedTRCount, which no line
    writes, is zero. *)
Theorem counters_count_completed_calls (cfg : Config) (w : World) (t : nat) :
  Z.of_nat t <= INT_MAX ->
  requestCount (vars (do_work cfg w t))
  = Z.of_nat (count_events is_completed_request_send (log (do_work cfg w t))) /\
  receivedCount (vars (do_work cfg w t))
  = Z.of_nat (count_events is_completed_receive (log (do_work cfg w t))) /\
  sentCount (vars (do_work cfg w t))
  = Z.of_nat (count_events is_completed_result_send (log (do_work cfg w t))) /\
  requestedTRCount (vars (do_work cfg w t)) = 0.
Proof.
  intros Hb. split_ands; [| | |apply requestedTRCount_never_written].
  all: induction t as [|t IH]; [reflexivity|];
    rewrite Nat2Z.inj_succ in Hb; specialize (IH ltac:(lia));
    pose proof (progress_bound cfg w t ltac:(lia)) as Hp;
    rewrite do_work_S, step_vars, step_log, count_events_app, Nat2Z.inj_add,
      <- IH;
    destruct (do_work cfg w t) as [p c l]; cbn [pc vars log] in *;
    unfold INT_MAX in Hb; revert Hp;
    step_cases p; cbn [at_endpoint_call]; intros Hp; cbn;
    rewrite ?int_add_exact by (unfold INT_MIN, INT_MAX; lia); lia.
Qed.

Lemma counters_count_completed_calls_witness :
  Z.of_nat 15 <= INT_MAX /\
  requestCount (vars (do_work source_config world_early_timeouts 15))
  = Z.of_nat (count_events is_completed_request_send
                (log (do_work source_config world_early_timeouts 15))).
Proof.
  assert (Hb : Z.of_nat 15 <= INT_MAX) by (unfold INT_MAX; cbn; lia).
  split; [exact Hb|].
  apply (counters_count_completed_calls source_config world_early_timeouts 15 Hb).
Defined.

(** X2.  The warnings of the log are, in order, exactly one warning for
    each request-send timeout, carrying the request-send timeout, and one
    for each receive timeout, carrying the receive timeout; a result-send
    timeout contributes none. *)
Theorem warnings_are_request_and_receive_timeouts
    (cfg : Config) (w : World) (t : nat) :
  filter is_warning (log (do_work cfg w t))
  = flat_map (warning_for cfg) (log (do_work cfg w t)).
Proof.
  induction t as [|t IH]; [reflexivity|].
  rewrite do_work_S, step_log, filter_warning_app, flat_map_app, IH.
  f_equal.
  destruct (do_work cfg w t) as [p c l]. cbn [pc vars log].
  step_cases p; reflexivity.
Qed.

(** The record the send loop is working on is the latest one received. *)
Lemma send_loop_record_is_last_received (cfg : Config) (w : World) (t : nat) :
  forwards_last_received None (log (do_work cfg w t)) = true /\
  match pc (do_work cfg w t) with
  | AtSendFlag r _ | AtResultSend r _ =>
      last_received None (log (do_work cfg w t)) = Some r
  | _ => True
  end.
Proof.
  induction t as [|t [IH1 IH2]]; [split; [reflexivity|exact I]|].
  rewrite do_work_S, step_pc, step_log, forwards_last_received_app,
    last_received_app, IH1.
  destruct (do_work cfg w t) as [p c l]. cbn [pc vars log] in *.
  revert IH2.
  step_cases p; intros IH2; cbn; rewrite ?IH2, ?Nat.eqb_refl; split; auto.
Qed.

(** X3.  In every log, each result send, completed or timed out, carries
    the record of the latest completed receive before it: the loop never
    sends a record it did not receive, nor an older one. *)
Theorem result_sends_carry_last_received_record
    (cfg : Config) (w : World) (t : nat) :
  forwards_last_received None (log (do_work cfg w t)) = true.
Proof. apply send_loop_record_is_last_received. Qed.

(** X4.  On a run of at most [INT_MAX] steps, every unit of progress has
    cost two steps, the load of the flag and the transport call: after [t]
    steps, twice the sum of requestCount, receivedCount and sentCount (plus
    one if the thread stands inside a call) is at most [t], and no counter
    is negative. *)
Theorem progress_costs_two_steps (cfg : Config) (w : World) (t : nat) :
  Z.of_nat t <= INT_MAX ->
  0 <= requestCount (vars (do_work cfg w t)) /\
  0 <= receivedCount (vars (do_work cfg w t)) /\
  0 <= sentCount (vars (do_work cfg w t)) /\
  2 * (requestCount (vars (do_work cfg w t))
       + receivedCount (vars (do_work cfg w t))
       + sentCount (vars (do_work cfg w t)))
  + (if at_endpoint_call (pc (do_work cfg w t)) then 1 else 0)
  <= Z.of_nat t.
Proof. apply progress_bound. Qed.

Lemma progress_costs_two_steps_witness :
  Z.of_nat 12 <= INT_MAX /\
  2 * (requestCount (vars (do_work source_config world_prompt_forever 12))
       + receivedCount (vars (do_work source_config world_prompt_forever 12))
       + sentCount (vars (do_work source_config world_prompt_forever 12)))
  + (if at_endpoint_call (pc (do_work source_config world_prompt_forever 12))
     then 1 else 0)
  <= Z.of_nat 12.
Proof.
  assert (Hb : Z.of_nat 12 <= INT_MAX) by (unfold INT_MAX; cbn; lia).
  split; [exact Hb|].
  apply (progress_costs_two_steps source_config world_prompt_forever 12 Hb).
Defined.

(** ** Running without cancellation *)

(** X5.  For batch sizes N >= 1, on a run of at most [INT_MAX] steps, as
    long as every load of the flag has read true the function has not
    returned, every received record has been forwarded except the one the
    send loop is working on, and the records received plus those still owed
    by the current request make up N times the requests sent. *)
Theorem running_loop_accounts_for_every_record
    (cfg : Config) (w : World) (t : nat) :
  1 <= TRsToRequestEachTime cfg ->
  Z.of_nat t <= INT_MAX ->
  (forall j, (j < t)%nat -> running_flag w j = true) ->
  pc (do_work cfg w t) <> Returned /\
  sentCount (vars (do_work cfg w t))
  + (if in_send_loop (pc (do_work cfg w t)) then 1 else 0)
  = receivedCount (vars (do_work cfg w t)) /\
  receivedCount (vars (do_work cfg w t))
  + match owed (pc (do_work cfg w t)) with Some l => l | None => 0 end
  = TRsToRequestEachTime cfg * requestCount (vars (do_work cfg w t)) /\
  match owed (pc (do_work cfg w t)) with
  | Some l => if in_send_loop (pc (do_work cfg w t)) then 0 <= l else 0 < l
  | None => True
  end.
Proof.
  intros HN. induction t as [|t IH]; intros Hb Hflag.
  - cbn. split_ands; (congruence || lia || exact I).
  - assert (Hf : running_flag w t = true) by (apply Hflag; lia).
    rewrite Nat2Z.inj_succ in Hb.
    specialize (IH ltac:(lia) (fun j Hj => Hflag j (Nat.lt_lt_succ_r _ _ Hj))).
    pose proof (progress_bound cfg w t ltac:(lia)) as Hp.
    rewrite do_work_S, step_pc, step_vars.
    destruct (do_work cfg w t) as [p c l]. cbn [pc vars log] in *.
    unfold INT_MAX in Hb. revert IH Hp.
    step_cases p; cbn [owed in_send_loop at_endpoint_call];
      intros (Hret & Hs & Hr & Hl) Hp;
      try congruence;
      rewrite ?int_add_exact by (unfold INT_MIN, INT_MAX; lia);
      split_ands; try discriminate; try lia; try exact I.
Qed.

Lemma running_loop_accounts_for_every_record_witness :
  1 <= TRsToRequestEachTime source_config /\
  Z.of_nat 23 <= INT_MAX /\
  (forall j, (j < 23)%nat -> running_flag world_prompt_forever j = true) /\
  pc (do_work source_config world_prompt_forever 23) <> Returned /\
  sentCount (vars (do_work source_config world_prompt_forever 23))
  + (if in_send_loop (pc (do_work source_config world_prompt_forever 23))
     then 1 else 0)
  = receivedCount (vars (do_work source_config world_prompt_forever 23)).
Proof.
  assert (HN : 1 <= TRsToRequestEachTime source_config) by (cbn; lia).
  assert (Hb : Z.of_nat 23 <= INT_MAX) by (unfold INT_MAX; cbn; lia).
  assert (Hflag : forall j, (j < 23)%nat ->
                            running_flag world_prompt_forever j = true)
    by (intros j _; reflexivity).
  split; [exact HN|]. split; [exact Hb|]. split; [exact Hflag|].
  destruct (running_loop_accounts_for_every_record
              source_config world_prompt_forever 23 HN Hb Hflag)
    as (H1 & H2 & _).
  split; [exact H1 | exact H2].
Defined.

(** ** Returning *)

(** X6.  The function returns only through line 104: if it has returned
    after [t] steps, then at some earlier step the thread stood at the head
    of the outer loop, the flag read false there, and the function had
    returned one step later. *)
Theorem returns_only_on_false_outer_flag (cfg : Config) (w : World) (t : nat) :
  pc (do_work cfg w t) = Returned ->
  exists t0, (t0 < t)%nat /\
             pc (do_work cfg w t0) = AtOuterFlag /\
             running_flag w t0 = false /\
             pc (do_work cfg w (S t0)) = Returned.
Proof.
  induction t as [|t IH]; [discriminate|].
  intros Hret.
  destruct (pc (do_work cfg w t)) eqn:Hpc.
  2-7: exfalso; revert Hret; rewrite do_work_S, step_pc, Hpc;
       generalize (vars (do_work cfg w t)); intros c;
       cbn [step_core after_receive_loop send_loop_head negb fst snd];
       unfold owed_loop_head;
       repeat match goal with
         | |- context [if ?b then _ else _] => destruct b
         | |- context [match ?o with Completed _ => _ | TransportTimeoutExpired => _ end] =>
             destruct o
         end; cbn; discriminate.
  - exists t. split; [lia|]. split; [exact Hpc|]. split; [|exact Hret].
    revert Hret. rewrite do_work_S, step_pc, Hpc. cbn.
    destruct (running_flag w t); [discriminate|reflexivity].
  - destruct (IH eq_refl) as (t0 & Hlt & H). exists t0. split; [lia|exact H].
Qed.

Lemma returns_only_on_false_outer_flag_witness :
  pc (do_work source_config world_early_timeouts 16) = Returned /\
  exists t0, (t0 < 16)%nat /\
             pc (do_work source_config world_early_timeouts t0) = AtOuterFlag /\
             running_flag world_early_timeouts t0 = false /\
             pc (do_work source_config world_early_timeouts (S t0)) = Returned.
Proof.
  split; [reflexivity|].
  apply (returns_only_on_false_outer_flag source_config world_early_timeouts 16).
  reflexivity.
Defined.

(** X7.  Once the function has returned, the log ends with the false load
    of the flag followed by the summary of the final counters, and no later
    step changes the control point, the counters or the log. *)
Theorem summary_is_the_last_event (cfg : Config) (w : World) (t k : nat) :
  pc (do_work cfg w t) = Returned ->
  (exists l, log (do_work cfg w t)
             = l ++ [EvLoad false; EvInfo (summary cfg (vars (do_work cfg w t)))]) /\
  do_work cfg w (t + k) = do_work cfg w t.
Proof.
  intros Hret. split; [|apply returned_stays; exact Hret].
  clear k. induction t as [|t IH]; [discriminate|].
  destruct (pc (do_work cfg w t)) eqn:Hpc.
  2-7: exfalso; revert Hret; rewrite do_work_S, step_pc, Hpc;
       generalize (vars (do_work cfg w t)); intros c;
       cbn [step_core after_receive_loop send_loop_head negb fst snd];
       unfold owed_loop_head;
       repeat match goal with
         | |- context [if ?b then _ else _] => destruct b
         | |- context [match ?o with Completed _ => _ | TransportTimeoutExpired => _ end] =>
             destruct o
         end; cbn; discriminate.
  - revert Hret. rewrite do_work_S, step_pc, step_vars, step_log, Hpc. cbn.
    destruct (running_flag w t); [discriminate|]. intros _. cbn.
    now exists (log (do_work cfg w t)).
  - destruct (IH eq_refl) as [l Hl].
    assert (E : do_work cfg w (S t) = do_work cfg w t)
      by (rewrite <- (returned_stays cfg w t 1 Hpc); f_equal; lia).
    rewrite E. now exists l.
Qed.

Lemma summary_is_the_last_event_witness :
  pc (do_work source_config world_early_timeouts 15) = Returned /\
  do_work source_config world_early_timeouts (15 + 100)
  = do_work source_config world_early_timeouts 15.
Proof.
  split; [reflexivity|].
  apply (summary_is_the_last_event source_config world_early_timeouts 15 100).
  reflexivity.
Defined.

(** ** Stopping from any state *)

Lemma call_is_followed_by_flag_check (cfg : Config) (w : World) (t : nat)
    (p : Pc) (c : Counters) :
  at_endpoint_call p = true ->
  at_endpoint_call (fst (fst (step_core cfg w t p c))) = false.
Proof.
  intros Hcall. revert Hcall. step_cases p; cbn; congruence.
Qed.

Lemma outside_call_rank (p : Pc) :
  at_endpoint_call p = false -> (exit_rank p <= 3)%nat.
Proof. destruct p; cbn; intros Hc; (lia || discriminate). Qed.

(** X8.  If the flag reads false from step [t0] on, whatever the thread is
    doing at [t0], no step after [t0] performs a send or a receive (only a
    call already in flight at [t0] completes), and the function has
    returned four steps later. *)
Theorem stop_lets_only_the_call_in_flight_finish
    (cfg : Config) (w : World) (t0 : nat) :
  (forall t, (t0 <= t)%nat -> running_flag w t = false) ->
  (forall t, (t0 < t)%nat -> no_endpoint_op (events_at cfg w t) = true) /\
  pc (do_work cfg w (t0 + 4)) = Returned.
Proof.
  intros Hflag.
  destruct (at_endpoint_call (pc (do_work cfg w t0))) eqn:Hcall.
  - assert (Hcall' : at_endpoint_call (pc (do_work cfg w (S t0))) = false).
    { rewrite do_work_S, step_pc. now apply call_is_followed_by_flag_check. }
    assert (Hflag' : forall t, (S t0 <= t)%nat -> running_flag w t = false)
      by (intros t Ht; apply Hflag; lia).
    split.
    + intros t Ht. replace t with (S t0 + (t - S t0))%nat by lia.
      apply (stopped_run cfg w (S t0) (t - S t0) Hflag' Hcall').
    + replace (t0 + 4)%nat with (S t0 + 3)%nat by lia.
      apply exit_rank_0.
      destruct (stopped_run cfg w (S t0) 3 Hflag' Hcall') as (_ & _ & H & _).
      pose proof (outside_call_rank _ Hcall'). lia.
  - split.
    + intros t Ht. replace t with (t0 + (t - t0))%nat by lia.
      apply (stopped_run cfg w t0 (t - t0) Hflag Hcall).
    + apply exit_rank_0.
      destruct (stopped_run cfg w t0 4 Hflag Hcall) as (_ & _ & H & _).
      pose proof (outside_call_rank _ Hcall). lia.
Qed.

Lemma stop_lets_only_the_call_in_flight_finish_witness :
  (forall t, (4 <= t)%nat -> running_flag world_stop_in_flight t = false) /\
  pc (do_work source_config world_stop_in_flight 4) = AtReceive 1 /\
  pc (do_work source_config world_stop_in_flight (4 + 4)) = Returned.
Proof.
  assert (Hflag : forall t, (4 <= t)%nat ->
                            running_flag world_stop_in_flight t = false).
  { intros t Ht. change ((t <? 4)%nat = false). apply Nat.ltb_ge. lia. }
  split; [exact Hflag|]. split; [reflexivity|].
  apply (stop_lets_only_the_call_in_flight_finish
           source_config world_stop_in_flight 4 Hflag).
Defined.

(** ** Retry loops *)

(** X9.  While the flag reads true and the data source stays silent, the
    receive loop goes round without end: after [k] rounds the thread stands
    at the head of the loop again with the same number of records owed and
    the same counters, and the log has grown by [k] times a true load, a
    timed-out receive and one warning for the data source. *)
Theorem receive_loop_warns_once_per_round
    (cfg : Config) (w : World) (t k : nat) (l : Z) :
  pc (do_work cfg w t) = AtReceiveFlag l ->
  (forall j, (j < 2 * k)%nat ->
     running_flag w (t + j) = true /\
     dataReceiver_receive w (t + j) = TransportTimeoutExpired) ->
  pc (do_work cfg w (t + 2 * k)) = AtReceiveFlag l /\
  vars (do_work cfg w (t + 2 * k)) = vars (do_work cfg w t) /\
  log (do_work cfg w (t + 2 * k))
  = log (do_work cfg w t) ++ concat (repeat (receive_retry_round cfg) k).
Proof.
  intros Hpc. induction k as [|k IH]; intros Henv.
  - rewrite Nat.mul_0_r, Nat.add_0_r. cbn. now rewrite app_nil_r.
  - destruct IH as (Hp & Hv & Hl); [intros j Hj; apply Henv; lia|].
    destruct (Henv (2 * k)%nat ltac:(lia)) as [Hf1 _].
    destruct (Henv (S (2 * k))%nat ltac:(lia)) as [_ Hr2].
    destruct (step_at cfg w _ _ _ Hp eq_refl) as (Hp1 & Hv1 & Hl1).
    cbn [step_core] in Hp1, Hv1, Hl1. rewrite Hf1 in Hp1, Hv1, Hl1.
    cbn [fst snd] in Hp1, Hv1, Hl1.
    destruct (step_at cfg w _ _ _ Hp1 eq_refl) as (Hp2 & Hv2 & Hl2).
    cbn [step_core] in Hp2, Hv2, Hl2.
    replace (S (t + 2 * k)) with (t + S (2 * k))%nat in Hp2, Hv2, Hl2 by lia.
    rewrite Hr2 in Hp2, Hv2, Hl2. cbn [fst snd] in Hp2, Hv2, Hl2.
    replace (t + 2 * S k)%nat with (S (t + S (2 * k))) by lia.
    split_ands.
    + exact Hp2.
    + rewrite Hv2. replace (t + S (2 * k))%nat with (S (t + 2 * k)) by lia.
      now rewrite Hv1.
    + rewrite Hl2. replace (t + S (2 * k))%nat with (S (t + 2 * k)) by lia.
      rewrite Hl1, Hl, concat_repeat_snoc, <- !app_assoc. reflexivity.
Qed.

Lemma receive_loop_warns_once_per_round_witness :
  pc (do_work source_config world_data_down 3) = AtReceiveFlag 1 /\
  (forall j, (j < 2 * 25)%nat ->
     running_flag world_data_down (3 + j) = true /\
     dataReceiver_receive world_data_down (3 + j) = TransportTimeoutExpired) /\
  pc (do_work source_config world_data_down (3 + 2 * 25)) = AtReceiveFlag 1 /\
  vars (do_work source_config world_data_down (3 + 2 * 25))
  = vars (do_work source_config world_data_down 3).
Proof.
  assert (Henv : forall j, (j < 2 * 25)%nat ->
            running_flag world_data_down (3 + j) = true /\
            dataReceiver_receive world_data_down (3 + j) = TransportTimeoutExpired)
    by (intros j _; split; reflexivity).
  split; [reflexivity|]. split; [exact Henv|].
  destruct (receive_loop_warns_once_per_round
              source_config world_data_down 3 25 1 eq_refl Henv) as (H1 & H2 & _).
  split; [exact H1 | exact H2].
Defined.

(** X10.  While the flag reads true and the request send times out, the
    outer loop goes round without end: after [k] rounds the thread stands
    at line 104 again with the same counters, and the log has grown by [k]
    times a true load, a timed-out request send for the batch size and one
    warning for the request address. *)
Theorem request_loop_warns_once_per_round
    (cfg : Config) (w : World) (t k : nat) :
  pc (do_work cfg w t) = AtOuterFlag ->
  (forall j, (j < 2 * k)%nat ->
     running_flag w (t + j) = true /\
     requestSender_send w (t + j) = TransportTimeoutExpired) ->
  pc (do_work cfg w (t + 2 * k)) = AtOuterFlag /\
  vars (do_work cfg w (t + 2 * k)) = vars (do_work cfg w t) /\
  log (do_work cfg w (t + 2 * k))
  = log (do_work cfg w t) ++ concat (repeat (request_retry_round cfg) k).
Proof.
  intros Hpc. induction k as [|k IH]; intros Henv.
  - rewrite Nat.mul_0_r, Nat.add_0_r. cbn. now rewrite app_nil_r.
  - destruct IH as (Hp & Hv & Hl); [intros j Hj; apply Henv; lia|].
    destruct (Henv (2 * k)%nat ltac:(lia)) as [Hf1 _].
    destruct (Henv (S (2 * k))%nat ltac:(lia)) as [_ Hr2].
    destruct (step_at cfg w _ _ _ Hp eq_refl) as (Hp1 & Hv1 & Hl1).
    cbn [step_core] in Hp1, Hv1, Hl1. rewrite Hf1 in Hp1, Hv1, Hl1.
    cbn [fst snd] in Hp1, Hv1, Hl1.
    destruct (step_at cfg w _ _ _ Hp1 eq_refl) as (Hp2 & Hv2 & Hl2).
    cbn [step_core] in Hp2, Hv2, Hl2.
    replace (S (t + 2 * k)) with (t + S (2 * k))%nat in Hp2, Hv2, Hl2 by lia.
    rewrite Hr2 in Hp2, Hv2, Hl2. cbn [fst snd] in Hp2, Hv2, Hl2.
    replace (t + 2 * S k)%nat with (S (t + S (2 * k))) by lia.
    split_ands.
    + exact Hp2.
    + rewrite Hv2. replace (t + S (2 * k))%nat with (S (t + 2 * k)) by lia.
      now rewrite Hv1.
    + rewrite Hl2. replace (t + S (2 * k))%nat with (S (t + 2 * k)) by lia.
      rewrite Hl1, Hl, concat_repeat_snoc, <- !app_assoc. reflexivity.
Qed.

Lemma request_loop_warns_once_per_round_witness :
  pc (do_work source_config world_all_down 0) = AtOuterFlag /\
  (forall j, (j < 2 * 25)%nat ->
     running_flag world_all_down (0 + j) = true /\
     requestSender_send world_all_down (0 + j) = TransportTimeoutExpired) /\
  pc (do_work source_config world_all_down (0 + 2 * 25)) = AtOuterFlag /\
  vars (do_work source_config world_all_down (0 + 2 * 25))
  = vars (do_work source_config world_all_down 0).
Proof.
  assert (Henv : forall j, (j < 2 * 25)%nat ->
            running_flag world_all_down (0 + j) = true /\
            requestSender_send world_all_down (0 + j) = TransportTimeoutExpired)
    by (intros j _; split; reflexivity).
  split; [reflexivity|]. split; [exact Henv|].
  destruct (request_loop_warns_once_per_round
              source_config world_all_down 0 25 eq_refl Henv) as (H1 & H2 & _).
  split; [exact H1 | exact H2].
Defined.

(** ** A whole iteration *)

Section Prompt.

Variable cfg : Config.
Variable w : World.
Variable t : nat.

Hypothesis flag_true : forall j, (t <= j)%nat -> running_flag w j = true.
Hypothesis receive_ok :
  forall j, (t <= j)%nat -> dataReceiver_receive w j <> TransportTimeoutExpired.
Hypothesis result_ok :
  forall j, (t <= j)%nat -> resultSender_send w j = Completed tt.

(** Lines 138-186 once: five steps take one record from the data source to
    the result destination. *)
Lemma prompt_record_round (s : nat) (l : Z) :
  (t <= s)%nat ->
  Z.of_nat (s + 5) <= INT_MAX ->
  pc (do_work cfg w s) = AtOwedFlag l ->
  pc (do_work cfg w (s + 5)) = owed_loop_head (l - 1) /\
  vars (do_work cfg w (s + 5))
  = {| requestCount := requestCount (vars (do_work cfg w s));
       requestedTRCount := requestedTRCount (vars (do_work cfg w s));
       receivedCount := receivedCount (vars (do_work cfg w s)) + 1;
       sentCount := sentCount (vars (do_work cfg w s)) + 1 |}.
Proof.
  intros Hs Hb Hp0.
  pose proof (progress_bound cfg w s ltac:(lia)) as Hbound.
  rewrite Hp0 in Hbound. cbn [at_endpoint_call] in Hbound.
  unfold INT_MAX in Hb.
  destruct (step_at cfg w s _ _ Hp0 eq_refl) as (Hp1 & Hv1 & _).
  cbn [step_core] in Hp1, Hv1. rewrite (flag_true s Hs) in Hp1, Hv1.
  cbn [fst snd] in Hp1, Hv1.
  destruct (step_at cfg w (S s) _ _ Hp1 Hv1) as (Hp2 & Hv2 & _).
  cbn [step_core] in Hp2, Hv2.
  rewrite (flag_true (S s) ltac:(lia)) in Hp2, Hv2. cbn [fst snd] in Hp2, Hv2.
  destruct (step_at cfg w (S (S s)) _ _ Hp2 Hv2) as (Hp3 & Hv3 & _).
  cbn [step_core] in Hp3, Hv3.
  destruct (dataReceiver_receive w (S (S s))) as [r|] eqn:Hr;
    [|exfalso; apply (receive_ok (S (S s))); [lia|exact Hr]].
  cbn [after_receive_loop send_loop_head negb fst snd] in Hp3, Hv3.
  destruct (step_at cfg w (S (S (S s))) _ _ Hp3 Hv3) as (Hp4 & Hv4 & _).
  cbn [step_core] in Hp4, Hv4.
  rewrite (flag_true (S (S (S s))) ltac:(lia)) in Hp4, Hv4.
  cbn [fst snd] in Hp4, Hv4.
  destruct (step_at cfg w (S (S (S (S s)))) _ _ Hp4 Hv4) as (Hp5 & Hv5 & _).
  cbn [step_core] in Hp5, Hv5.
  rewrite (result_ok (S (S (S (S s)))) ltac:(lia)) in Hp5, Hv5.
  cbn [send_loop_head negb fst snd requestCount requestedTRCount
       receivedCount sentCount] in Hp5, Hv5.
  replace (s + 5)%nat with (S (S (S (S (S s))))) by lia.
  split; [exact Hp5|]. rewrite Hv5.
  rewrite !int_add_exact by (unfold INT_MIN, INT_MAX; lia). reflexivity.
Qed.

(** The rest of a batch: [n] records still owed take [5 * n] steps. *)
Lemma prompt_batch_rounds (n : nat) :
  forall s, (t <= s)%nat ->
  Z.of_nat (s + 5 * n) <= INT_MAX ->
  pc (do_work cfg w s) = owed_loop_head (Z.of_nat n) ->
  pc (do_work cfg w (s + 5 * n)) = AtOuterFlag /\
  vars (do_work cfg w (s + 5 * n))
  = {| requestCount := requestCount (vars (do_work cfg w s));
       requestedTRCount := requestedTRCount (vars (do_work cfg w s));
       receivedCount := receivedCount (vars (do_work cfg w s)) + Z.of_nat n;
       sentCount := sentCount (vars (do_work cfg w s)) + Z.of_nat n |}.
Proof.
  induction n as [|n IH]; intros s Hs Hb Hp.
  - rewrite Nat.mul_0_r, Nat.add_0_r. split; [exact Hp|].
    destruct (vars (do_work cfg w s)). cbn. f_equal; lia.
  - unfold owed_loop_head in Hp.
    destruct (Z.ltb_spec 0 (Z.of_nat (S n))); [|lia].
    destruct (prompt_record_round s _ Hs ltac:(lia) Hp) as [Hp5 Hv5].
    replace (Z.of_nat (S n) - 1) with (Z.of_nat n) in Hp5 by lia.
    destruct (IH (s + 5)%nat ltac:(lia) ltac:(lia) Hp5) as [Hp' Hv'].
    replace (s + 5 * S n)%nat with (s + 5 + 5 * n)%nat by lia.
    split; [exact Hp'|]. rewrite Hv', Hv5. cbn. f_equal; lia.
Qed.

End Prompt.

(** X11.  With a batch size N >= 1, the flag reading true and every endpoint
    answering at once from step [t] on, one iteration of the outer loop
    takes [2 + 5 * N] steps: on a run that stays within [INT_MAX] steps the
    thread is back at line 104 with one more request sent and N more
    records received and forwarded, requestedTRCount being left as it
    was. *)
Theorem prompt_iteration_serves_a_whole_batch
    (cfg : Config) (w : World) (t : nat) :
  1 <= TRsToRequestEachTime cfg ->
  Z.of_nat (t + 2 + 5 * Z.to_nat (TRsToRequestEachTime cfg)) <= INT_MAX ->
  (forall j, (t <= j)%nat -> running_flag w j = true) ->
  (forall j, (t <= j)%nat -> requestSender_send w j = Completed tt) ->
  (forall j, (t <= j)%nat -> dataReceiver_receive w j <> TransportTimeoutExpired) ->
  (forall j, (t <= j)%nat -> resultSender_send w j = Completed tt) ->
  pc (do_work cfg w t) = AtOuterFlag ->
  pc (do_work cfg w (t + 2 + 5 * Z.to_nat (TRsToRequestEachTime cfg)))
  = AtOuterFlag /\
  vars (do_work cfg w (t + 2 + 5 * Z.to_nat (TRsToRequestEachTime cfg)))
  = {| requestCount := requestCount (vars (do_work cfg w t)) + 1;
       requestedTRCount := requestedTRCount (vars (do_work cfg w t));
       receivedCount :=
         receivedCount (vars (do_work cfg w t)) + TRsToRequestEachTime cfg;
       sentCount :=
         sentCount (vars (do_work cfg w t)) + TRsToRequestEachTime cfg |}.
Proof.
  intros HN Hb Hflag Hreq Hrecv Hres Hp0.
  pose proof (progress_bound cfg w t ltac:(lia)) as Hbound.
  rewrite Hp0 in Hbound. cbn [at_endpoint_call] in Hbound.
  destruct (step_at cfg w t _ _ Hp0 eq_refl) as (Hp1 & Hv1 & _).
  cbn [step_core] in Hp1, Hv1. rewrite (Hflag t (Nat.le_refl t)) in Hp1, Hv1.
  cbn [fst snd] in Hp1, Hv1.
  destruct (step_at cfg w (S t) _ _ Hp1 Hv1) as (Hp2 & Hv2 & _).
  cbn [step_core] in Hp2, Hv2.
  rewrite (Hreq (S t) ltac:(lia)) in Hp2, Hv2. cbn [fst snd] in Hp2, Hv2.
  replace (S (S t)) with (t + 2)%nat in Hp2, Hv2 by lia.
  rewrite <- (Z2Nat.id (TRsToRequestEachTime cfg)) in Hp2 at 1 by lia.
  destruct (prompt_batch_rounds cfg w t Hflag Hrecv Hres
              (Z.to_nat (TRsToRequestEachTime cfg)) (t + 2)%nat
              ltac:(lia) Hb Hp2)
    as [Hp Hv].
  split; [exact Hp|]. rewrite Hv, Hv2. cbn.
  rewrite int_add_exact by (unfold INT_MIN, INT_MAX in *; lia).
  f_equal; lia.
Qed.

Lemma prompt_iteration_serves_a_whole_batch_witness :
  1 <= TRsToRequestEachTime source_config /\
  pc (do_work source_config world_prompt_forever 7) = AtOuterFlag /\
  pc (do_work source_config world_prompt_forever
        (7 + 2 + 5 * Z.to_nat (TRsToRequestEachTime source_config)))
  = AtOuterFlag.
Proof.
  assert (HN : 1 <= TRsToRequestEachTime source_config) by (cbn; lia).
  assert (Hb : Z.of_nat (7 + 2 + 5 * Z.to_nat (TRsToRequestEachTime source_config))
               <= INT_MAX) by (unfold INT_MAX; cbn; lia).
  split; [exact HN|]. split; [reflexivity|].
  apply (prompt_iteration_serves_a_whole_batch
           source_config world_prompt_forever 7 HN Hb).
  - intros j _. reflexivity.
  - intros j _. reflexivity.
  - intros j _. discriminate.
  - intros j _. reflexivity.
  - reflexivity.
Defined.

(** ** Initialisation *)

Lemma init_success_members
    (lib : Msglib) (get_config : string -> Address) (m : Members) :
  snd (init lib get_config m) = None ->
  fst (init lib get_config m)
  = {| requestSender_ := Some (get_config "request_address"%string);
       dataReceiver_ := Some (get_config "data_source_address"%string);
       resultSender_ := Some (get_config "result_destination_address"%string) |}.
Proof.
  unfold init.
  destruct (new_DAQSender_TriggerRecordRequest lib _); [discriminate|].
  destruct (new_DAQReceiver_TriggerRecord lib _); [discriminate|].
  destruct (new_DAQSender_TriggerRecord lib _); [discriminate|].
  reflexivity.
Qed.

(** X12.  [init] throws nothing exactly when all three transport
    constructors succeed on the configured addresses, and it then leaves the
    three members owning the endpoints built on the addresses stored under
    request_address, data_source_address and result_destination_address. *)
Theorem init_succeeds_iff_all_endpoints_open
    (lib : Msglib) (get_config : string -> Address) (m : Members) :
  (snd (init lib get_config m) = None <->
   new_DAQSender_TriggerRecordRequest lib (get_config "request_address"%string)
   = None /\
   new_DAQReceiver_TriggerRecord lib (get_config "data_source_address"%string)
   = None /\
   new_DAQSender_TriggerRecord lib (get_config "result_destination_address"%string)
   = None) /\
  (snd (init lib get_config m) = None ->
   fst (init lib get_config m)
   = {| requestSender_ := Some (get_config "request_address"%string);
        dataReceiver_ := Some (get_config "data_source_address"%string);
        resultSender_ := Some (get_config "result_destination_address"%string) |}).
Proof.
  unfold init.
  destruct (new_DAQSender_TriggerRecordRequest lib _) as [i1|];
    [cbn; split; [split; [discriminate|intros (H & _); discriminate H]
                 |discriminate]|].
  destruct (new_DAQReceiver_TriggerRecord lib _) as [i2|];
    [cbn; split; [split; [discriminate|intros (_ & H & _); discriminate H]
                 |discriminate]|].
  destruct (new_DAQSender_TriggerRecord lib _) as [i3|];
    [cbn; split; [split; [discriminate|intros (_ & _ & H); discriminate H]
                 |discriminate]|].
  cbn. split; [split; auto|reflexivity].
Qed.

(** X13.  When [init] throws, the error names the first endpoint, in the
    order request connection, data source address, result destination
    address, whose constructor threw, and carries that constructor's issue;
    the members before it already own their new endpoints and the failing
    member and those after it are left as they were. *)
Theorem init_reports_first_failing_endpoint
    (lib : Msglib) (get_config : string -> Address) (m : Members)
    (e : InvalidEndpointFatalError) :
  snd (init lib get_config m) = Some e ->
  (new_DAQSender_TriggerRecordRequest lib (get_config "request_address"%string)
   = Some (cause e) /\
   what e = "request connection"%string /\
   fst (init lib get_config m) = m)
  \/
  (new_DAQSender_TriggerRecordRequest lib (get_config "request_address"%string)
   = None /\
   new_DAQReceiver_TriggerRecord lib (get_config "data_source_address"%string)
   = Some (cause e) /\
   what e = "data source address"%string /\
   fst (init lib get_config m)
   = {| requestSender_ := Some (get_config "request_address"%string);
        dataReceiver_ := dataReceiver_ m;
        resultSender_ := resultSender_ m |})
  \/
  (new_DAQSender_TriggerRecordRequest lib (get_config "request_address"%string)
   = None /\
   new_DAQReceiver_TriggerRecord lib (get_config "data_source_address"%string)
   = None /\
   new_DAQSender_TriggerRecord lib (get_config "result_destination_address"%string)
   = Some (cause e) /\
   what e = "result destination address"%string /\
   fst (init lib get_config m)
   = {| requestSender_ := Some (get_config "request_address"%string);
        dataReceiver_ := Some (get_config "data_source_address"%string);
        resultSender_ := resultSender_ m |}).
Proof.
  unfold init.
  destruct (new_DAQSender_TriggerRecordRequest lib _) as [i1|].
  { cbn. intros [= <-]. left. cbn. auto. }
  destruct (new_DAQReceiver_TriggerRecord lib _) as [i2|].
  { cbn. intros [= <-]. right; left. cbn. auto. }
  destruct (new_DAQSender_TriggerRecord lib _) as [i3|].
  { cbn. intros [= <-]. right; right. cbn. auto. }
  cbn. discriminate.
Qed.

Lemma init_reports_first_failing_endpoint_witness :
  snd (init msglib_data_source_down example_get_config constructed)
  = Some {| what := "data source address"%string;
          cause := "connection refused"%string |} /\
  fst (init msglib_data_source_down example_get_config constructed)
  = {| requestSender_ := Some "tcp://dispatcher:5000"%string;
       dataReceiver_ := None;
       resultSender_ := None |}.
Proof.
  split; [reflexivity|].
  destruct (init_reports_first_failing_endpoint
              msglib_data_source_down example_get_config constructed
              {| what := "data source address"%string;
          cause := "connection refused"%string |}
              eq_refl)
    as [(H & _) | [(_ & _ & _ & H) | (_ & H & _)]].
  - discriminate H.
  - exact H.
  - discriminate H.
Defined.
